(** * agentic-ai-starter-kit: the math tool, the memory buffer and the
      tool-call dispatch of [Agent.solve]

    A shallow embedding of [src/tools/math_tool.py] and [src/agent/core.py],
    with [load_settings] of [src/config.py] and [main] of [src/run_demo.py].

    Conventions of the embedding.
    - A Python [str] is a [string]; every [ascii] stands for one character
      with code point below 256.
    - A call that may raise returns a [result]: [Ok v] for a returned value,
      [Raise e] for an exception that leaves the call.
    - Python integers are [Z].
    - Binary floating point, the text of the interpreter's exception
      messages, its bound on the digits of an integer converted from or to
      text and [json.loads] are not part of the repository: they are the
      fields of a [Runtime] record over which the development is
      parametric.
    - [load_dotenv] and [rprint] are library functions too: [load_settings]
      and [main] take what they do as arguments. *)

From Stdlib Require Import String Ascii List ZArith Lia Bool QArith Factorial.
From Stdlib Require Import DecimalString DecimalPos DecimalZ.
From Bignums Require Import BigZ.
Import ListNotations.

Local Open Scope string_scope.
Local Open Scope list_scope.
Local Open Scope Z_scope.

Set Implicit Arguments.
Set Warnings "-register-all".

(** ** Exceptions and results *)

(** The exceptions that occur, all of them instances of [Exception]. *)
Inductive exn : Type :=
| KeyError (key : string)
| IndexError
| TypeError
| ValueError
| ZeroDivisionError
| OverflowError
| SyntaxError
| OtherError (cls : string).

Inductive result (A : Type) : Type :=
| Ok (a : A)
| Raise (e : exn).

Arguments Ok {A} a.
Arguments Raise {A} e.

Definition rbind {A B} (r : result A) (f : A -> result B) : result B :=
  match r with
  | Ok a => f a
  | Raise e => Raise e
  end.

Definition rmap {A B} (f : A -> B) (r : result A) : result B :=
  rbind r (fun a => Ok (f a)).

Declare Scope result_scope.
Delimit Scope result_scope with result.
Notation "x <- c ;; k" := (rbind c (fun x => k))
  (at level 61, c at next level, right associativity) : result_scope.

(** ** Python objects that reach the tool *)

(** The objects [json.loads] can produce, over a type [F] of floats.
    A [dict] keeps its items in insertion order. *)
Inductive pyobj (F : Type) : Type :=
| PNone
| PBool (b : bool)
| PInt (z : Z)
| PFloat (f : F)
| PStr (s : string)
| PList (l : list (pyobj F))
| PDict (d : list (string * pyobj F)).

Arguments PNone {F}.
Arguments PBool {F} b.
Arguments PInt {F} z.
Arguments PFloat {F} f.
Arguments PStr {F} s.
Arguments PList {F} l.
Arguments PDict {F} d.

(** Dictionaries with string keys, as insertion-ordered association lists
    with one item per key. *)
Module pydict.

Definition t (V : Type) : Type := list (string * V).

Definition empty {V} : t V := [].

Fixpoint get {V} (d : t V) (k : string) : option V :=
  match d with
  | [] => None
  | (k', v) :: d' => if String.eqb k k' then Some v else get d' k
  end.

(** [d[k] = v]: an existing key keeps its position. *)
Fixpoint set {V} (d : t V) (k : string) (v : V) : t V :=
  match d with
  | [] => [(k, v)]
  | (k', v') :: d' =>
      if String.eqb k k' then (k', v) :: d' else (k', v') :: set d' k v
  end.

Definition values {V} (d : t V) : list V := map snd d.

Definition keys {V} (d : t V) : list string := map fst d.

(** [d[k]] as an expression: [KeyError] on a missing key. *)
Definition getitem {V} (d : t V) (k : string) : result V :=
  match get d k with
  | Some v => Ok v
  | None => Raise (KeyError k)
  end.

End pydict.

(** ** Strings *)

Definition chars (s : string) : list ascii := list_ascii_of_string s.

Definition code (c : ascii) : N := N_of_ascii c.

(** [str.isspace] on one character (code points below 256). *)
Definition is_unicode_space (c : ascii) : bool :=
  let n := code c in
  ((9 <=? n) && (n <=? 13) || (28 <=? n) && (n <=? 32)
   || (n =? 133) || (n =? 160))%N.

(** The white space [int()] skips around a number. *)
Definition is_int_space (c : ascii) : bool :=
  let n := code c in
  ((9 <=? n) && (n <=? 13) || (n =? 32) || (n =? 133) || (n =? 160))%N.

Definition is_digit (c : ascii) : bool :=
  let n := code c in ((48 <=? n) && (n <=? 57))%N.

Fixpoint drop_while {A} (p : A -> bool) (l : list A) : list A :=
  match l with
  | [] => []
  | x :: l' => if p x then drop_while p l' else l
  end.

Definition strip_with (p : ascii -> bool) (l : list ascii) : list ascii :=
  rev (drop_while p (rev (drop_while p l))).

(** [s.strip()] *)
Definition py_strip (s : string) : string :=
  string_of_list_ascii (strip_with is_unicode_space (chars s)).

(** The decimal text of an integer. *)
Definition str_int (z : Z) : string := NilZero.string_of_int (Z.to_int z).

(** The interpreter refuses to convert an integer from or to decimal text
    when it has more than [limit] digits, [limit] being
    [sys.get_int_max_str_digits()]: 4300 unless changed, [0] for no bound,
    and otherwise at least 640; numbers of at most 640 digits are never
    refused. *)
Definition over_limit (limit ndigits : Z) : bool :=
  (640 <? ndigits) && (0 <? limit) && (limit <? ndigits).

(** The same for an integer [z], which has more than [k] digits when
    [10 ^ k <= |z|]. *)
Definition int_too_long (limit z : Z) : bool :=
  if 10 ^ 640 <=? Z.abs z then
    if 0 <? limit then 10 ^ limit <=? Z.abs z else false
  else false.

(** [str(z)] for an integer. *)
Definition py_str_int (limit z : Z) : result string :=
  if int_too_long limit z then Raise ValueError else Ok (str_int z).

(** The digits-and-underscores part of an integer literal given to [int()]:
    it starts and ends with a digit and has no two underscores in a row.
    [prev_digit] tells whether the previous character was a digit. The
    result is the digits with the underscores removed. *)
Fixpoint int_digits (prev_digit : bool) (l : list ascii) : option (list ascii) :=
  match l with
  | [] => if prev_digit then Some [] else None
  | c :: l' =>
      if is_digit c then option_map (cons c) (int_digits true l')
      else if Ascii.eqb c "_" then
        if prev_digit then int_digits false l' else None
      else None
  end.

Definition int_of_digits (l : list ascii) : option Z :=
  option_map Z.of_uint (NilEmpty.uint_of_string (string_of_list_ascii l)).

(** [int(s)] for a string, base ten. *)
Definition int_of_str (limit : Z) (s : string) : result Z :=
  let body := strip_with is_int_space (chars s) in
  let '(neg, ds) :=
    match body with
    | c :: l' =>
        if Ascii.eqb c "-" then (true, l')
        else if Ascii.eqb c "+" then (false, l')
        else (false, body)
    | [] => (false, [])
    end in
  match ds with
  | [] => Raise ValueError
  | _ :: _ =>
      match int_digits false ds with
      | Some digits =>
          if over_limit limit (Z.of_nat (length digits)) then Raise ValueError
          else
            match int_of_digits digits with
            | Some n => Ok (if neg then - n else n)
            | None => Raise ValueError
            end
      | None => Raise ValueError
      end
  end.

(** [math.factorial(n)] for [n >= 0]. *)
Fixpoint fact (n : nat) : Z :=
  match n with
  | O => 1
  | S m => Z.of_nat n * fact m
  end.

Definition math_factorial (n : Z) : result Z :=
  if n <? 0 then Raise ValueError else Ok (fact (Z.to_nat n)).

(** ** The interpreter's part *)

Inductive binop : Type := Add | Sub | Mul | TrueDiv | FloorDiv | Pow.

Inductive unop : Type := UPlus | UMinus.

(** What the embedding takes from the interpreter and its libraries. Every
    operation that can raise in CPython returns a [result]. *)
Record Runtime : Type := {
  float : Type;                                  (* binary floating point *)
  float_literal : string -> float;               (* value of a literal's text *)
  float_of_str : string -> result float;         (* float(s) *)
  float_of_int : Z -> result float;              (* int to float *)
  int_of_float : float -> result Z;              (* int(x) *)
  float_neg : float -> float;                    (* -x *)
  float_binop : binop -> float -> float -> result float;
  int_truediv : Z -> Z -> result float;          (* a / b, b nonzero *)
  math_sqrt : float -> result float;             (* math.sqrt(x) *)
  str_float : float -> string;                   (* str(x) *)
  exn_text : exn -> string;                      (* str(e) *)
  json_loads : string -> result (pyobj float);   (* json.loads(s) *)
  ssize_max : Z;                                 (* sys.maxsize *)
  int_max_str_digits : Z                         (* sys.get_int_max_str_digits() *)
}.

(** ** [eval] on the text the whitelist lets through

    With the characters [0123456789+-*/(). ] Python's expression grammar
    reduces to
<<
      sum     ::= sum ('+'|'-') term | term
      term    ::= term ('*'|'/'|'//') factor | factor
      factor  ::= ('+'|'-') factor | power
      power   ::= primary '**' factor | primary
      primary ::= primary '(' [arg] ')' | atom
      arg     ::= sum | '*' sum | '**' sum
      atom    ::= NUMBER | '...' | '(' ')' | '(' sum ')'
>>
    Of the interpreter's limits only the bound on the digits of an integer
    literal is modelled, not those on nesting or memory. *)

Inductive token : Type :=
| TInt (n : Z)
| TFloat (text : string)
| TBadNumber          (* leading zeros, or more digits than the bound *)
| TEllipsis
| TDot
| TPlus | TMinus | TStar | TDoubleStar | TSlash | TDoubleSlash
| TLPar | TRPar
| TOther (c : ascii).

(** What the tokenizer has read of the token in progress; character lists
    are kept in reverse. *)
Inductive lex_state : Type :=
| LIdle
| LInt (rdigits : list ascii)
| LFrac (rtext : list ascii)
| LDot
| LDotDot
| LStar
| LSlash.

Definition digits_value (l : list ascii) : Z :=
  fold_left (fun acc c => 10 * acc + (Z.of_N (code c) - 48)) l 0.

Definition is_zero_char (c : ascii) : bool := Ascii.eqb c "0".

(** A run of digits not followed by a point: zeros only, or no leading
    zero and no more digits than the bound on conversions allows. *)
Definition int_token (limit : Z) (digits : list ascii) : token :=
  match digits with
  | c :: _ =>
      if is_zero_char c then
        if forallb is_zero_char digits then TInt 0 else TBadNumber
      else if over_limit limit (Z.of_nat (length digits)) then TBadNumber
      else TInt (digits_value digits)
  | [] => TBadNumber
  end.

Definition float_token (rtext : list ascii) : token :=
  TFloat (string_of_list_ascii (rev rtext)).

(** The tokens a state stands for when its token ends. *)
Definition flush (limit : Z) (st : lex_state) : list token :=
  match st with
  | LIdle => []
  | LInt rd => [int_token limit (rev rd)]
  | LFrac rt => [float_token rt]
  | LDot => [TDot]
  | LDotDot => [TDot; TDot]
  | LStar => [TStar]
  | LSlash => [TSlash]
  end.

(** A character read with no token in progress. *)
Definition lex_start (c : ascii) : list token * lex_state :=
  if is_digit c then ([], LInt [c])
  else if Ascii.eqb c "." then ([], LDot)
  else if Ascii.eqb c "*" then ([], LStar)
  else if Ascii.eqb c "/" then ([], LSlash)
  else if Ascii.eqb c "+" then ([TPlus], LIdle)
  else if Ascii.eqb c "-" then ([TMinus], LIdle)
  else if Ascii.eqb c "(" then ([TLPar], LIdle)
  else if Ascii.eqb c ")" then ([TRPar], LIdle)
  else if Ascii.eqb c " " then ([], LIdle)
  else ([TOther c], LIdle).

Definition lex_after (out : list token) (c : ascii) : list token * lex_state :=
  let '(out', st) := lex_start c in (out ++ out', st).

(** One character: the tokens completed by it and the next state. *)
Definition lex_step (limit : Z) (st : lex_state) (c : ascii)
  : list token * lex_state :=
  match st with
  | LIdle => lex_start c
  | LInt rd =>
      if is_digit c then ([], LInt (c :: rd))
      else if Ascii.eqb c "." then ([], LFrac (c :: rd))
      else lex_after (flush limit st) c
  | LFrac rt =>
      if is_digit c then ([], LFrac (c :: rt)) else lex_after (flush limit st) c
  | LDot =>
      if is_digit c then ([], LFrac [c; "."%char])
      else if Ascii.eqb c "." then ([], LDotDot)
      else lex_after (flush limit st) c
  | LDotDot =>
      if Ascii.eqb c "." then ([TEllipsis], LIdle)
      else if is_digit c then ([TDot], LFrac [c; "."%char])
      else lex_after (flush limit st) c
  | LStar =>
      if Ascii.eqb c "*" then ([TDoubleStar], LIdle)
      else lex_after (flush limit st) c
  | LSlash =>
      if Ascii.eqb c "/" then ([TDoubleSlash], LIdle)
      else lex_after (flush limit st) c
  end.

Fixpoint lex (limit : Z) (st : lex_state) (l : list ascii) : list token :=
  match l with
  | [] => flush limit st
  | c :: l' =>
      let '(out, st') := lex_step limit st c in out ++ lex limit st' l'
  end.

Definition tokenize (limit : Z) (s : string) : list token :=
  lex limit LIdle (chars s).

Inductive arg_kind : Type := Plain | Starred | DoubleStarred.

Inductive expr : Type :=
| EInt (n : Z)
| EFloat (text : string)
| EEllipsis
| ETuple                                     (* [()] *)
| EUnary (op : unop) (e : expr)
| EBin (op : binop) (l r : expr)
| ECall (f : expr) (arg : option (arg_kind * expr)).

Inductive presult (A : Type) : Type :=
| POk (a : A)
| PErr            (* not in the grammar *)
| PFuel.          (* recursion budget used up *)

Arguments POk {A} a.
Arguments PErr {A}.
Arguments PFuel {A}.

(** Grammar levels: 1 sum, 2 term, 3 factor, 4 power, 5 primary. *)
Definition binary_op (t : token) : option (binop * nat * nat) :=
  match t with
  | TPlus => Some (Add, 1, 2)
  | TMinus => Some (Sub, 1, 2)
  | TStar => Some (Mul, 2, 3)
  | TSlash => Some (TrueDiv, 2, 3)
  | TDoubleSlash => Some (FloorDiv, 2, 3)
  | TDoubleStar => Some (Pow, 4, 3)
  | _ => None
  end%nat.

(** [parse_operand fuel lvl toks] reads an expression whose operators all
    have level at least [lvl]; [parse_rest] continues after the operand
    [lhs]. An operator of level [l] takes its right operand at the level
    given with it by [binary_op]. *)
Fixpoint parse_operand (fuel : nat) (lvl : nat) (toks : list token)
  {struct fuel} : presult (expr * list token) :=
  match fuel with
  | O => PFuel
  | S fuel' =>
      match toks with
      | TInt n :: rest => parse_rest fuel' lvl (EInt n) rest
      | TFloat s :: rest => parse_rest fuel' lvl (EFloat s) rest
      | TEllipsis :: rest => parse_rest fuel' lvl EEllipsis rest
      | TLPar :: TRPar :: rest => parse_rest fuel' lvl ETuple rest
      | TLPar :: rest =>
          match parse_operand fuel' 0 rest with
          | POk (e, TRPar :: rest') => parse_rest fuel' lvl e rest'
          | POk _ => PErr
          | PErr => PErr
          | PFuel => PFuel
          end
      | TPlus :: rest =>
          match parse_operand fuel' 3 rest with
          | POk (e, rest') => parse_rest fuel' lvl (EUnary UPlus e) rest'
          | PErr => PErr
          | PFuel => PFuel
          end
      | TMinus :: rest =>
          match parse_operand fuel' 3 rest with
          | POk (e, rest') => parse_rest fuel' lvl (EUnary UMinus e) rest'
          | PErr => PErr
          | PFuel => PFuel
          end
      | _ => PErr
      end
  end

with parse_rest (fuel : nat) (lvl : nat) (lhs : expr) (toks : list token)
  {struct fuel} : presult (expr * list token) :=
  match fuel with
  | O => PFuel
  | S fuel' =>
      match toks with
      | [] => POk (lhs, [])
      | TLPar :: rest =>
          let call kind rest1 :=
            match parse_operand fuel' 0 rest1 with
            | POk (e, TRPar :: rest') =>
                parse_rest fuel' lvl (ECall lhs (Some (kind, e))) rest'
            | POk _ => PErr
            | PErr => PErr
            | PFuel => PFuel
            end in
          match rest with
          | TRPar :: rest' => parse_rest fuel' lvl (ECall lhs None) rest'
          | TStar :: rest1 => call Starred rest1
          | TDoubleStar :: rest1 => call DoubleStarred rest1
          | _ => call Plain rest
          end
      | t :: rest =>
          match binary_op t with
          | Some (op, l, r) =>
              if (lvl <=? l)%nat then
                match parse_operand fuel' r rest with
                | POk (rhs, rest') => parse_rest fuel' lvl (EBin op lhs rhs) rest'
                | PErr => PErr
                | PFuel => PFuel
                end
              else POk (lhs, toks)
          | None => POk (lhs, toks)
          end
      end
  end.

Definition parse (toks : list token) : option expr :=
  match parse_operand (S (length toks)) 0 toks with
  | POk (e, []) => Some e
  | _ => None
  end.

(** The values an expression over the whitelist can have. *)
Inductive value (F : Type) : Type :=
| VInt (z : Z)
| VFloat (f : F)
| VTuple            (* the empty tuple, the only one that can be built *)
| VEllipsis.

Arguments VInt {F} z.
Arguments VFloat {F} f.
Arguments VTuple {F}.
Arguments VEllipsis {F}.

(** ** Operations on the payload that involve no number *)

(** [x[key]] for a string key. *)
Definition subscript {F} (x : pyobj F) (key : string) : result (pyobj F) :=
  match x with
  | PDict d => pydict.getitem d key
  | _ => Raise TypeError
  end.

(** [x == s] for a string literal [s]. *)
Definition eq_str {F} (x : pyobj F) (s : string) : bool :=
  match x with
  | PStr s' => String.eqb s' s
  | _ => false
  end.

Definition hashable {F} (x : pyobj F) : bool :=
  match x with
  | PList _ | PDict _ => false
  | _ => true
  end.

(** The elements of [set(x)], duplicates kept. *)
Definition py_set {F} (x : pyobj F) : result (list (pyobj F)) :=
  match x with
  | PStr s => Ok (map (fun c => PStr (String c "")) (chars s))
  | PList l => if forallb hashable l then Ok l else Raise TypeError
  | PDict d => Ok (map PStr (pydict.keys d))
  | _ => Raise TypeError
  end.

(** [set("0123456789+-*/(). ")] *)
Definition allowed : list ascii := chars "0123456789+-*/(). ".

Definition in_allowed {F} (x : pyobj F) : bool :=
  match x with
  | PStr (String c "") => existsb (Ascii.eqb c) allowed
  | _ => false
  end.

(** [items <= allowed] *)
Definition subset_allowed {F} (items : list (pyobj F)) : bool :=
  forallb in_allowed items.

Section Interpreter.

Variable R : Runtime.

Local Open Scope result_scope.

Local Abbreviation float := (float R).
Local Abbreviation value := (value float).
Local Abbreviation pyobj := (pyobj float).

Definition int_arith (op : binop) (x y : Z) : result value :=
  match op with
  | Add => Ok (VInt (x + y))
  | Sub => Ok (VInt (x - y))
  | Mul => Ok (VInt (x * y))
  | TrueDiv =>
      if y =? 0 then Raise ZeroDivisionError
      else rmap VFloat (int_truediv R x y)
  | FloorDiv =>
      if y =? 0 then Raise ZeroDivisionError else Ok (VInt (x / y))
  | Pow =>
      if 0 <=? y then Ok (VInt (x ^ y))
      else
        fx <- float_of_int R x ;;
        fy <- float_of_int R y ;;
        rmap VFloat (float_binop R Pow fx fy)
  end.

(** [() * n]: the count has to fit the index type. *)
Definition repeat_empty (n : Z) : result value :=
  if (- ssize_max R - 1 <=? n) && (n <=? ssize_max R)
  then Ok VTuple else Raise OverflowError.

Definition arith (op : binop) (a b : value) : result value :=
  match a, b with
  | VInt x, VInt y => int_arith op x y
  | VInt x, VFloat g =>
      f <- float_of_int R x ;; rmap VFloat (float_binop R op f g)
  | VFloat f, VInt y =>
      g <- float_of_int R y ;; rmap VFloat (float_binop R op f g)
  | VFloat f, VFloat g => rmap VFloat (float_binop R op f g)
  | VTuple, VTuple =>
      match op with Add => Ok VTuple | _ => Raise TypeError end
  | VTuple, VInt n | VInt n, VTuple =>
      match op with Mul => repeat_empty n | _ => Raise TypeError end
  | _, _ => Raise TypeError
  end.

Definition unary (op : unop) (a : value) : result value :=
  match op, a with
  | UPlus, VInt x => Ok (VInt x)
  | UMinus, VInt x => Ok (VInt (- x))
  | UPlus, VFloat f => Ok (VFloat f)
  | UMinus, VFloat f => Ok (VFloat (float_neg R f))
  | _, _ => Raise TypeError
  end.

(** Operands are evaluated left to right; nothing over the whitelist is
    callable, so a call raises once its parts are evaluated. *)
Fixpoint eval_expr (e : expr) : result value :=
  match e with
  | EInt n => Ok (VInt n)
  | EFloat text => Ok (VFloat (float_literal R text))
  | EEllipsis => Ok VEllipsis
  | ETuple => Ok VTuple
  | EUnary op e1 => v <- eval_expr e1 ;; unary op v
  | EBin op l r => a <- eval_expr l ;; b <- eval_expr r ;; arith op a b
  | ECall f arg =>
      _ <- eval_expr f ;;
      _ <- match arg with
           | Some (_, e1) => eval_expr e1
           | None => Ok VTuple
           end ;;
      Raise TypeError
  end.

(** [eval(src, {"__builtins__": {}}, {})] for a string [src]. *)
Definition py_eval (src : string) : result value :=
  match parse (tokenize (int_max_str_digits R) src) with
  | Some e => eval_expr e
  | None => Raise SyntaxError
  end.

(** [str(v)] *)
Definition str_value (v : value) : result string :=
  match v with
  | VInt z => py_str_int (int_max_str_digits R) z
  | VFloat f => Ok (str_float R f)
  | VTuple => Ok "()"
  | VEllipsis => Ok "Ellipsis"
  end.

(** ** Built-ins applied to the payload *)

Definition int_of_bool (b : bool) : Z := if b then 1 else 0.

(** [float(x)] *)
Definition py_float (x : pyobj) : result float :=
  match x with
  | PStr s => float_of_str R s
  | PInt z => float_of_int R z
  | PBool b => float_of_int R (int_of_bool b)
  | PFloat f => Ok f
  | _ => Raise TypeError
  end.

(** [int(x)] *)
Definition py_int (x : pyobj) : result Z :=
  match x with
  | PStr s => int_of_str (int_max_str_digits R) s
  | PInt z => Ok z
  | PBool b => Ok (int_of_bool b)
  | PFloat f => int_of_float R f
  | _ => Raise TypeError
  end.

(** ** [src/tools/math_tool.py] *)

(** [try: return BODY / except Exception as e: return f"Error: {e}"] *)
Definition try_return (body : result string) : string :=
  match body with
  | Ok s => s
  | Raise e => "Error: " ++ exn_text R e
  end%string.

(** [evaluate_math], over the evaluator [ev] that stands for the
    built-in [eval] applied to a string. *)
Definition evaluate_math_with (ev : string -> result value)
  (payload : pyobj) : result string :=
  expr <- subscript payload "expression" ;;
  mode <- subscript payload "mode" ;;
  if eq_str mode "sqrt" then
    Ok (try_return (
          x <- py_float expr ;;
          r <- math_sqrt R x ;;
          Ok (str_float R r)))
  else if eq_str mode "factorial" then
    Ok (try_return (
          n <- py_int expr ;;
          if (n <? 0) || (n >? 10000) then Ok "Error: n out of range"
          else
            f <- math_factorial n ;; py_str_int (int_max_str_digits R) f))
  else if eq_str mode "eval" then
    items <- py_set expr ;;
    if negb (subset_allowed items) then Ok "Error: disallowed characters"
    else
      Ok (try_return (
            v <- match expr with
                 | PStr src => ev src
                 | _ => Raise TypeError
                 end ;;
            str_value v))
  else Ok "Error: unknown mode".

Definition evaluate_math (payload : pyobj) : result string :=
  evaluate_math_with py_eval payload.

End Interpreter.

(** ** [src/config.py] *)

Module Settings.
Record t : Type := {
  api_key : string;
  model_default : string;
  model_fast : string;
  model_tiny : string
}.
End Settings.

(** ** The completion API, as [src/agent/core.py] uses it *)

(** [call.function] *)
Module Function.
Record t (F : Type) : Type := {
  name : string;
  arguments : pyobj F          (* a JSON string, or already a dict *)
}.
End Function.

(** One entry of [msg.tool_calls]. *)
Module ToolCall.
Record t (F : Type) : Type := {
  id : string;
  function : Function.t F
}.
End ToolCall.

(** The dictionaries built as messages. *)
Inductive message_param (F : Type) : Type :=
| Turn (role content : string)
    (* {"role": role, "content": content} *)
| ToolResult (tool_call_id name content : string)
    (* {"role": "tool", "tool_call_id": .., "name": .., "content": ..} *)
| ToolRequest (tool_calls : list (ToolCall.t F)).
    (* {"role": "assistant", "content": None, "tool_calls": ..} *)

Arguments Turn {F} role content.
Arguments ToolResult {F} tool_call_id name content.
Arguments ToolRequest {F} tool_calls.

(** [{"name": .., "description": .., "parameters": ..}] *)
Module FunctionDef.
Record t (F : Type) : Type := {
  name : string;
  description : string;
  parameters : pyobj F
}.
End FunctionDef.

(** [{"type": "function", "function": {..}}] *)
Module ToolDef.
Record t (F : Type) : Type := {
  type : string;
  function : FunctionDef.t F
}.
End ToolDef.

(** The keyword arguments of [client.chat.completions.create]. *)
Module Request.
Record t (F : Type) : Type := {
  model : string;
  messages : list (message_param F);
  tools : option (list (ToolDef.t F));
  tool_choice : option string;
  temperature : Q
}.
End Request.

(** [choices[i].message] of a response. *)
Module Message.
Record t (F : Type) : Type := {
  content : option string;
  tool_calls : option (list (ToolCall.t F))
}.
End Message.

Module Response.
Record t (F : Type) : Type := {
  choices : list (Message.t F)
}.
End Response.

(** A computation that talks to the completion API: it is finished, or it
    calls [create] and goes on with what the call returned or raised. *)
Inductive prog (F X : Type) : Type :=
| Done (x : X)
| Create (req : Request.t F) (k : result (Response.t F) -> prog F X).

Arguments Done {F X} x.
Arguments Create {F X} req k.

Fixpoint prog_bind {F X Y} (p : prog F X) (f : X -> prog F Y) : prog F Y :=
  match p with
  | Done x => f x
  | Create req k => Create req (fun reply => prog_bind (k reply) f)
  end.

(** Running a computation against the replies the API gives, in order:
    the outcome and the requests made, or [None] when the replies run
    out. *)
Fixpoint run {F X} (p : prog F X) (replies : list (result (Response.t F)))
  : option (X * list (Request.t F)) :=
  match p with
  | Done x => Some (x, [])
  | Create req k =>
      match replies with
      | [] => None
      | reply :: replies' =>
          match run (k reply) replies' with
          | Some (x, reqs) => Some (x, req :: reqs)
          | None => None
          end
      end
  end.

(** ** [src/agent/core.py] *)

(** A handler is a function of its argument: it returns a string or
    raises. *)
Module ToolSpec.
Record t (F : Type) : Type := {
  name : string;
  description : string;
  parameters : pyobj F;
  handler : pyobj F -> result string
}.
End ToolSpec.

Module Memory.

(** One element of [turns]: [{"role": .., "content": ..}]. *)
Record turn : Type := { role : string; content : string }.

Record t : Type := { turns : list turn }.

(** [Memory()] *)
Definition new : t := {| turns := [] |}.

(** A method maps the object to what it returns and the object after
    the call. *)
Definition method (A : Type) : Type := t -> A * t.

Definition add (role content : string) : method unit :=
  fun self =>
    (tt, {| turns := turns self ++ [{| role := role; content := content |}] |}).

Definition as_messages {F} : method (list (message_param F)) :=
  fun self =>
    (map (fun t => Turn (role t) (content t)) (turns self), self).

End Memory.

Module Agent.

(** The attributes of an [Agent] that change or are read; the client is
    the [Create] of [prog]. *)
Record t (F : Type) : Type := {
  settings : Settings.t;
  memory : Memory.t;
  tools : pydict.t (ToolSpec.t F)
}.

Section Methods.

Variable R : Runtime.

Local Abbreviation F := (float R).
Local Abbreviation agent := (t F).

(** A method of the agent: from the agent before the call to the
    API calls made, what is returned or raised, and the agent after. *)
Definition M (A : Type) : Type := agent -> prog F (result A * agent).

Definition ret {A} (a : A) : M A := fun self => Done (Ok a, self).

Definition bind {A B} (m : M A) (f : A -> M B) : M B :=
  fun self =>
    prog_bind (m self)
      (fun out =>
         match out with
         | (Ok a, self') => f a self'
         | (Raise e, self') => Done (Raise e, self')
         end).

Local Notation "x <- c ;; k" := (bind c (fun x => k))
  (at level 61, c at next level, right associativity).

(** A call that returns or raises without touching the agent. *)
Definition lift {A} (r : result A) : M A := fun self => Done (r, self).

(** [self.client.chat.completions.create(..)] *)
Definition create (req : Request.t F) : M (Response.t F) :=
  fun self => Create req (fun reply => Done (reply, self)).

(** A method call on [self.memory]. *)
Definition on_memory {A} (m : Memory.method A) : M A :=
  fun self =>
    let '(a, mem) := m (memory self) in
    Done (Ok a, {| settings := settings self; memory := mem;
                   tools := tools self |}).

Definition get_tools : M (pydict.t (ToolSpec.t F)) :=
  fun self => Done (Ok (tools self), self).

Definition get_settings : M Settings.t :=
  fun self => Done (Ok (settings self), self).

(** [self.tools[tool.name] = tool] *)
Definition with_tool (tool : ToolSpec.t F) (self : agent) : agent :=
  {| settings := settings self; memory := memory self;
     tools := pydict.set (tools self) (ToolSpec.name tool) tool |}.

Definition register_tool (tool : ToolSpec.t F) : M unit :=
  fun self => Done (Ok tt, with_tool tool self).

(** The schema given for [evaluate_math] in [__init__]. *)
Definition evaluate_math_parameters : pyobj F :=
  PDict [
    ("type", PStr "object");
    ("properties",
      PDict [
        ("expression", PDict [("type", PStr "string")]);
        ("mode",
          PDict [("type", PStr "string");
                 ("enum", PList [PStr "eval"; PStr "sqrt"; PStr "factorial"])])
      ]);
    ("required", PList [PStr "expression"; PStr "mode"])
  ].

Definition evaluate_math_spec : ToolSpec.t F :=
  {| ToolSpec.name := "evaluate_math";
     ToolSpec.description := "Safely evaluate arithmetic, sqrt, or factorial.";
     ToolSpec.parameters := evaluate_math_parameters;
     ToolSpec.handler := fun args => evaluate_math R args |}.

(** [Agent(client, settings)]: the agent [__init__] leaves. *)
Definition init (s : Settings.t) : agent :=
  with_tool evaluate_math_spec
    {| settings := s; memory := Memory.new; tools := pydict.empty |}.

(** [x.choices[0].message] *)
Definition first_message (x : Response.t F) : result (Message.t F) :=
  match Response.choices x with
  | m :: _ => Ok m
  | [] => Raise IndexError
  end.

(** [(c or "").strip()] *)
Definition stripped (c : option string) : string :=
  py_strip (match c with
            | Some s => s
            | None => ""
            end).

Definition tool_def (spec : ToolSpec.t F) : ToolDef.t F :=
  {| ToolDef.type := "function";
     ToolDef.function :=
       {| FunctionDef.name := ToolSpec.name spec;
          FunctionDef.description := ToolSpec.description spec;
          FunctionDef.parameters := ToolSpec.parameters spec |} |}.

(** [json.loads(args) if isinstance(args, str) else args] *)
Definition parsed_arguments (args : pyobj F) : result (pyobj F) :=
  match args with
  | PStr s => json_loads R s
  | _ => Ok args
  end.

(** The body of [for call in msg.tool_calls], for one call: the
    message it appends. *)
Definition dispatch_call (registry : pydict.t (ToolSpec.t F))
  (call : ToolCall.t F) : result (message_param F) :=
  let name := Function.name (ToolCall.function call) in
  let args := Function.arguments (ToolCall.function call) in
  rbind (parsed_arguments args)
    (fun parsed =>
  rbind (pydict.getitem registry name)
    (fun spec =>
  rbind (ToolSpec.handler spec parsed)
    (fun result =>
  Ok (ToolResult (ToolCall.id call) name result)))).

(** The loop: [messages] grows by one message per call, in order; an
    exception leaves the loop. *)
Fixpoint dispatch (registry : pydict.t (ToolSpec.t F))
  (calls : list (ToolCall.t F)) (messages : list (message_param F))
  : result (list (message_param F)) :=
  match calls with
  | [] => Ok messages
  | call :: calls' =>
      rbind (dispatch_call registry call)
        (fun m => dispatch registry calls' (messages ++ [m]))
  end.

Definition sys : string :=
  "You are a precise problem solver. " ++
  "Use tools when arithmetic is nontrivial. " ++
  "Return a final answer with a short explanation, no hidden reasoning steps.".

(** The message list of the first pass. *)
Definition first_messages (mem : list (message_param F))
  (question : string) : list (message_param F) :=
  [Turn "system" sys] ++ mem ++ [Turn "user" question].

Definition first_request (s : Settings.t) (messages : list (message_param F))
  (tool_defs : list (ToolDef.t F)) : Request.t F :=
  {| Request.model := Settings.model_default s;
     Request.messages := messages;
     Request.tools := Some tool_defs;
     Request.tool_choice := Some "auto";
     Request.temperature := 2 # 10 |}.

(** [messages] is the list after the loop. *)
Definition second_request (s : Settings.t) (messages : list (message_param F))
  (calls : list (ToolCall.t F)) : Request.t F :=
  {| Request.model := Settings.model_default s;
     Request.messages := messages ++ [ToolRequest calls];
     Request.tools := None;
     Request.tool_choice := None;
     Request.temperature := 2 # 10 |}.

Definition solve (question : string) : M string :=
  registry <- get_tools ;;
  s <- get_settings ;;
  let tool_defs := map tool_def (pydict.values registry) in
  mem <- on_memory Memory.as_messages ;;
  let messages := first_messages mem question in
  first <- create (first_request s messages tool_defs) ;;
  msg <- lift (first_message first) ;;
  final <- match Message.tool_calls msg with
           | Some (call :: calls') =>
               let calls := call :: calls' in
               messages' <- lift (dispatch registry calls messages) ;;
               second <- create (second_request s messages' calls) ;;
               msg2 <- lift (first_message second) ;;
               ret (stripped (Message.content msg2))
           | _ => ret (stripped (Message.content msg))
           end ;;
  _ <- on_memory (Memory.add "assistant" final) ;;
  ret final.

(** The dash of the prompt, U+2014: out of the range of [ascii], it
    stands as its three UTF-8 bytes; the prompt is only handed on. *)
Definition em_dash : string :=
  String (ascii_of_nat 226) (String (ascii_of_nat 128)
    (String (ascii_of_nat 148) "")).

Definition user_prompt : string :=
  "Propose one difficult, precise question that tests reasoning ability. " ++
  "Output only the question text" ++ em_dash ++ "no preamble or answer.".

Definition propose_request (s : Settings.t) : Request.t F :=
  {| Request.model := Settings.model_fast s;
     Request.messages := [Turn "user" user_prompt];
     Request.tools := None;
     Request.tool_choice := None;
     Request.temperature := 7 # 10 |}.

Definition propose_question : M string :=
  s <- get_settings ;;
  resp <- create (propose_request s) ;;
  msg <- lift (first_message resp) ;;
  let question := stripped (Message.content msg) in
  _ <- on_memory (Memory.add "user" ("Question to solve: " ++ question)) ;;
  ret question.

End Methods.

End Agent.

(** ** [load_settings] of [src/config.py] and [main] of [src/run_demo.py] *)

(** The process environment, a dictionary of strings. *)
Definition environ : Type := pydict.t string.

(** [os.getenv(key, default)] *)
Definition getenv (env : environ) (key default : string) : string :=
  match pydict.get env key with
  | Some v => v
  | None => default
  end.

Definition runtime_error : exn := OtherError "RuntimeError".

(** [load_settings()]: what it returns or raises, and the environment it
    leaves. [load_dotenv] is what the library call
    [load_dotenv(override=True)] does: it returns or raises, and leaves
    an environment. *)
Definition load_settings (load_dotenv : environ -> result bool * environ)
  (env : environ) : result Settings.t * environ :=
  match load_dotenv env with
  | (Raise e, env) => (Raise e, env)
  | (Ok _, env) =>
      let api_key := getenv env "OPENAI_API_KEY" "" in
      if String.eqb api_key "" then (Raise runtime_error, env)
      else
        (Ok {| Settings.api_key := api_key;
               Settings.model_default :=
                 getenv env "OPENAI_DEFAULT_MODEL" "gpt-4.1";
               Settings.model_fast :=
                 getenv env "OPENAI_FAST_MODEL" "gpt-4.1-mini";
               Settings.model_tiny :=
                 getenv env "OPENAI_TINY_MODEL" "gpt-4.1-nano" |},
         env)
  end.

Definition newline : string := String (ascii_of_nat 10) "".

(** A call [rprint(text)] inside [main], then the rest: [printed] holds
    the arguments of the calls that returned so far. *)
Definition say {F} (rprint : string -> result unit) (text : string)
  (printed : list string)
  (rest : list string -> prog F (result unit * list string))
  : prog F (result unit * list string) :=
  match rprint text with
  | Ok _ => rest (printed ++ [text])
  | Raise e => Done (Raise e, printed)
  end.

(** [main()]: what it returns or raises, and the arguments of the calls
    of [rprint] that returned, in order. [rprint] is what the library
    function does with a text: it returns or raises. [make_client]
    builds the client that [Create] stands for. *)
Definition main (R : Runtime)
  (load_dotenv : environ -> result bool * environ)
  (rprint : string -> result unit) (env : environ)
  : prog (float R) (result unit * list string) :=
  match fst (load_settings load_dotenv env) with
  | Raise e => Done (Raise e, [])
  | Ok settings =>
      let agent := Agent.init R settings in
      say rprint "[bold cyan]Phase 1: Propose a challenging question[/bold cyan]" []
        (fun printed =>
      prog_bind (Agent.propose_question R agent)
        (fun r1 =>
           match fst r1 with
           | Raise e => Done (Raise e, printed)
           | Ok q =>
      say rprint ("[yellow]Question:[/yellow] " ++ q) printed
        (fun printed =>
      say rprint
        (newline ++ "[bold cyan]Phase 2: Solve with tools if needed[/bold cyan]")
        printed
        (fun printed =>
      prog_bind (Agent.solve R q (snd r1))
        (fun r2 =>
           match fst r2 with
           | Raise e => Done (Raise e, printed)
           | Ok ans =>
      say rprint ("[green]Answer:[/green] " ++ ans) printed
        (fun printed =>
      say rprint (newline ++ "[dim]Done.[/dim]") printed
        (fun printed => Done (Ok tt, printed)))
           end)))
           end))
  end.

(** The payload [{"expression": expression, "mode": mode}]. *)
Definition math_request {F} (expression mode : pyobj F) : pyobj F :=
  PDict [("expression", expression); ("mode", mode)].

(** ** A runtime for concrete runs

    The statements below that name a concrete run need some [Runtime].
    This one has a single float, gives every exception its class name as
    text and bounds the digits of integers as the interpreter does unless
    told otherwise; the runs shown never reach a float. *)

Definition class_name (e : exn) : string :=
  match e with
  | KeyError _ => "KeyError"
  | IndexError => "IndexError"
  | TypeError => "TypeError"
  | ValueError => "ValueError"
  | ZeroDivisionError => "ZeroDivisionError"
  | OverflowError => "OverflowError"
  | SyntaxError => "SyntaxError"
  | OtherError cls => cls
  end.

Definition sample_runtime : Runtime :=
  {| float := unit;
     float_literal := fun _ => tt;
     float_of_str := fun _ => Raise ValueError;
     float_of_int := fun _ => Ok tt;
     int_of_float := fun _ => Raise ValueError;
     float_neg := fun x => x;
     float_binop := fun _ _ _ => Ok tt;
     int_truediv := fun _ _ => Ok tt;
     math_sqrt := fun x => Ok x;
     str_float := fun _ => "nan";
     exn_text := class_name;
     json_loads := fun _ => Raise (OtherError "JSONDecodeError");
     ssize_max := 9223372036854775807;
     int_max_str_digits := 4300 |}.

Definition sample_settings : Settings.t :=
  {| Settings.api_key := "sk-test";
     Settings.model_default := "gpt-4.1";
     Settings.model_fast := "gpt-4.1-mini";
     Settings.model_tiny := "gpt-4.1-nano" |}.

Definition sample_agent : Agent.t unit :=
  Agent.init sample_runtime sample_settings.

Definition tool_call (id name : string) (args : pyobj unit) : ToolCall.t unit :=
  {| ToolCall.id := id;
     ToolCall.function :=
       {| Function.name := name; Function.arguments := args |} |}.

Definition call_A : ToolCall.t unit :=
  tool_call "call_A" "evaluate_math"
    (math_request (PStr "2 + 3 * 4") (PStr "eval")).

Definition call_B : ToolCall.t unit :=
  tool_call "call_B" "evaluate_math"
    (math_request (PStr "5") (PStr "factorial")).

Definition call_unknown : ToolCall.t unit :=
  tool_call "call_X" "lookup_weather" (PDict [("city", PStr "Oslo")]).

(** A reply that asks for tools, and one that answers. *)
Definition tool_reply (calls : list (ToolCall.t unit)) : Response.t unit :=
  {| Response.choices :=
       [{| Message.content := None; Message.tool_calls := Some calls |}] |}.

Definition text_reply (text : string) : Response.t unit :=
  {| Response.choices :=
       [{| Message.content := Some text; Message.tool_calls := None |}] |}.

(** A call whose arguments are text that [json_loads] of the sample
    runtime does not decode. *)
Definition call_undecodable : ToolCall.t unit :=
  tool_call "call_J" "evaluate_math" (PStr "{not json").

Definition empty_reply : Response.t unit := {| Response.choices := [] |}.

(** The first messages of [text_reply text] and [tool_reply calls]. *)
Definition text_message (text : string) : Message.t unit :=
  {| Message.content := Some text; Message.tool_calls := None |}.

Definition tool_message (calls : list (ToolCall.t unit)) : Message.t unit :=
  {| Message.content := None; Message.tool_calls := Some calls |}.

(** A [load_dotenv] that finds no file, an [rprint] that prints, and an
    environment with the key and an empty fast model. *)
Definition sample_load_dotenv (env : environ) : result bool * environ :=
  (Ok false, env).

Definition sample_rprint (text : string) : result unit := Ok tt.

Definition sample_environ : environ :=
  [("OPENAI_API_KEY", "sk-test"); ("OPENAI_FAST_MODEL", "")].

Definition sample_loaded_settings : Settings.t :=
  {| Settings.api_key := "sk-test";
     Settings.model_default := "gpt-4.1";
     Settings.model_fast := "";
     Settings.model_tiny := "gpt-4.1-nano" |}.

(** ** Definitions used to state the properties *)

(** [fact] on machine words, to evaluate large factorials. *)
Fixpoint bigfact (n : nat) : bigZ :=
  match n with
  | O => 1%bigZ
  | S m => (BigZ.of_Z (Z.of_nat n) * bigfact m)%bigZ
  end.

(** The [n] integers from [z] on. *)
Fixpoint zrange (n : nat) (z : Z) : list Z :=
  match n with
  | O => []
  | S m => z :: zrange m (z + 1)
  end.

(** [Memory.add] called once per entry, in order. *)
Definition add_all (entries : list (string * string)) (m : Memory.t) : Memory.t :=
  fold_left (fun m e => snd (Memory.add (fst e) (snd e) m)) entries m.

(** The roles the data model names. *)
Definition recognized_roles : list string :=
  ["user"; "assistant"; "tool"; "system"].

Definition recognized (t : Memory.turn) : Prop :=
  In (Memory.role t) recognized_roles.

(** What [solve] sends on the first pass, from the agent it is called on. *)
Definition first_pass_messages (R : Runtime) (a : Agent.t (float R))
  (question : string) : list (message_param (float R)) :=
  Agent.first_messages R (fst (Memory.as_messages (Agent.memory a))) question.

Definition first_pass_request (R : Runtime) (a : Agent.t (float R))
  (question : string) : Request.t (float R) :=
  Agent.first_request R (Agent.settings a) (first_pass_messages R a question)
    (map (Agent.tool_def R) (pydict.values (Agent.tools a))).

(** The agent [a] with one more turn at the end of its memory. *)
Definition with_turn {F} (a : Agent.t F) (role content : string) : Agent.t F :=
  {| Agent.settings := Agent.settings a;
     Agent.memory := snd (Memory.add role content (Agent.memory a));
     Agent.tools := Agent.tools a |}.


(** The agent after [__init__] and further calls of [register_tool]. *)
Definition registered (R : Runtime) (s : Settings.t)
  (more : list (ToolSpec.t (float R))) : Agent.t (float R) :=
  fold_left (fun a tool => Agent.with_tool R tool a) more (Agent.init R s).

(** The names in the tool definitions [solve] sends for an agent. *)
Definition tool_names (R : Runtime) (a : Agent.t (float R)) : list string :=
  map (fun def => FunctionDef.name (ToolDef.function def))
    (map (Agent.tool_def R) (pydict.values (Agent.tools a))).

(** [k] spaces. *)
Definition spaces (k : nat) : string := string_of_list_ascii (repeat " "%char k).

(** ** Source text for expressions *)

(** The text of an operator in Python source. *)
Definition binop_text (op : binop) : string :=
  match op with
  | Add => "+"
  | Sub => "-"
  | Mul => "*"
  | TrueDiv => "/"
  | FloorDiv => "//"
  | Pow => "**"
  end.

Definition unop_text (op : unop) : string :=
  match op with
  | UPlus => "+"
  | UMinus => "-"
  end.

(** A non-negative integer whose decimal text is within the bound on
    conversions. *)
Definition literal (limit n : Z) : bool :=
  (0 <=? n) && negb (over_limit limit (Z.of_nat (length (chars (str_int n))))).

(** Expressions made of such integers with unary and binary operators. *)
Fixpoint plain (limit : Z) (e : expr) : bool :=
  match e with
  | EInt n => literal limit n
  | EUnary _ e1 => plain limit e1
  | EBin _ l r => plain limit l && plain limit r
  | _ => false
  end.

(** The source text of such an expression, every operation in its own
    parentheses. *)
Fixpoint render (e : expr) : string :=
  match e with
  | EInt n => str_int n
  | EUnary op e1 => "(" ++ unop_text op ++ render e1 ++ ")"
  | EBin op l r =>
      "(" ++ render l ++ " " ++ binop_text op ++ " " ++ render r ++ ")"
  | _ => ""
  end.

(** Its tokens. *)
Definition binop_token (op : binop) : token :=
  match op with
  | Add => TPlus
  | Sub => TMinus
  | Mul => TStar
  | TrueDiv => TSlash
  | FloorDiv => TDoubleSlash
  | Pow => TDoubleStar
  end.



(** What may follow a run of digits for the run to be an integer
    literal: the end of the text, or a character that is neither a digit
    nor a point. *)
Definition number_ends (tail : list ascii) : Prop :=
  match tail with
  | [] => True
  | c :: _ => is_digit c = false /\ Ascii.eqb c "." = false
  end.

(** Precedence of the binary operators, as the language reference
    orders them; [**] groups to the right, the others to the left. *)
Definition precedence (op : binop) : nat :=
  match op with
  | Add | Sub => 1
  | Mul | TrueDiv | FloorDiv => 2
  | Pow => 3
  end.

Definition groups_right (o1 o2 : binop) : bool :=
  (precedence o1 <? precedence o2)%nat
  || match o1, o2 with
     | Pow, Pow => true
     | _, _ => false
     end.

(** [a o1 b o2 c], with one space around each operator. *)
Definition infix (a : Z) (o1 : binop) (b : Z) (o2 : binop) (c : Z) : string :=
  str_int a ++ " " ++ binop_text o1 ++ " " ++ str_int b
  ++ " " ++ binop_text o2 ++ " " ++ str_int c.

(** * Properties *)

Unset Implicit Arguments.

(** ** Strings and numbers *)

Lemma drop_while_none {A} (p : A -> bool) (l : list A) :
  Forall (fun x => p x = false) l -> drop_while p l = l.
Proof.
  destruct 1 as [|x l Hx _]; simpl; [reflexivity|].
  now rewrite Hx.
Qed.

Lemma strip_with_none (p : ascii -> bool) (l : list ascii) :
  Forall (fun c => p c = false) l -> strip_with p l = l.
Proof.
  intros H. unfold strip_with.
  rewrite (drop_while_none p l H).
  rewrite drop_while_none by now apply Forall_rev.
  apply rev_involutive.
Qed.

Lemma digit_not_int_space c : is_digit c = true -> is_int_space c = false.
Proof.
  destruct c as [[] [] [] [] [] [] [] []]; simpl; intros H;
    try discriminate H; reflexivity.
Qed.

Lemma digit_not_sign c :
  is_digit c = true -> Ascii.eqb c "-" = false /\ Ascii.eqb c "+" = false.
Proof.
  destruct c as [[] [] [] [] [] [] [] []]; simpl; intros H;
    try discriminate H; split; reflexivity.
Qed.

Lemma uint_chars_digits (d : Decimal.uint) :
  Forall (fun c => is_digit c = true) (chars (NilEmpty.string_of_uint d)).
Proof.
  induction d; simpl; constructor; auto.
Qed.

Lemma uint_chars_nonempty (d : Decimal.uint) :
  d <> Decimal.Nil -> chars (NilEmpty.string_of_uint d) <> [].
Proof.
  destruct d; simpl; intros H; try discriminate; now elim H.
Qed.

Lemma int_digits_all (l : list ascii) :
  Forall (fun c => is_digit c = true) l -> int_digits true l = Some l.
Proof.
  induction 1 as [|c l Hc _ IH]; simpl; [reflexivity|].
  now rewrite Hc, IH.
Qed.

Lemma int_digits_start (l : list ascii) :
  l <> [] -> Forall (fun c => is_digit c = true) l ->
  int_digits false l = Some l.
Proof.
  intros Hne H. destruct H as [|c l Hc H]; [now elim Hne|].
  simpl. now rewrite Hc, (int_digits_all l H).
Qed.

Lemma int_of_digits_uint (d : Decimal.uint) :
  int_of_digits (chars (NilEmpty.string_of_uint d)) = Some (Z.of_uint d).
Proof.
  unfold int_of_digits, chars.
  now rewrite string_of_list_ascii_of_string, NilEmpty.usu.
Qed.

(** The digits of a positive number, read back by [int()]. *)
Lemma int_of_str_digits (limit : Z) (neg : bool) (d : Decimal.uint) :
  d <> Decimal.Nil ->
  over_limit limit (Z.of_nat (length (chars (NilEmpty.string_of_uint d))))
    = false ->
  int_of_str limit
    ((if neg then "-" else "") ++ NilEmpty.string_of_uint d)%string
  = Ok (if neg then - Z.of_uint d else Z.of_uint d).
Proof.
  intros Hd Hlim.
  pose proof (uint_chars_digits d) as Hdig.
  pose proof (uint_chars_nonempty d Hd) as Hne.
  assert (Hsp : Forall (fun c => is_int_space c = false)
                  (chars (NilEmpty.string_of_uint d))).
  { eapply Forall_impl; [|exact Hdig]. apply digit_not_int_space. }
  unfold int_of_str. destruct neg.
  - change (chars ("-" ++ NilEmpty.string_of_uint d))
      with ("-"%char :: chars (NilEmpty.string_of_uint d)).
    rewrite strip_with_none by (constructor; [reflexivity|exact Hsp]).
    cbv beta iota zeta delta [Ascii.eqb Bool.eqb].
    destruct (chars (NilEmpty.string_of_uint d)) as [|c l] eqn:E;
      [now elim Hne|].
    rewrite <- E in *.
    rewrite (int_digits_start _ Hne Hdig), Hlim, int_of_digits_uint.
    reflexivity.
  - change (chars ("" ++ NilEmpty.string_of_uint d))
      with (chars (NilEmpty.string_of_uint d)).
    rewrite strip_with_none by exact Hsp.
    destruct (chars (NilEmpty.string_of_uint d)) as [|c l] eqn:E;
      [now elim Hne|].
    assert (Hc : is_digit c = true) by now inversion Hdig.
    destruct (@digit_not_sign c Hc) as [H1 H2].
    cbv beta iota zeta. rewrite H1, H2. cbv beta iota zeta.
    rewrite <- E in *.
    rewrite (int_digits_start _ Hne Hdig), Hlim, int_of_digits_uint.
    reflexivity.
Qed.

(** [int(str(n)) == n], for [n] within the bound on digits. *)
Lemma int_of_str_str_int (limit n : Z) :
  over_limit limit (Z.of_nat (length (chars (str_int (Z.abs n))))) = false ->
  int_of_str limit (str_int n) = Ok n.
Proof.
  destruct n as [|p|p]; intros Hlim.
  - reflexivity.
  - unfold str_int in *. simpl Z.abs in Hlim. simpl Z.to_int in *.
    pose proof (DecimalPos.Unsigned.to_uint_nonnil p) as Hp.
    assert (E : NilZero.string_of_int (Decimal.Pos (Pos.to_uint p))
                = NilEmpty.string_of_uint (Pos.to_uint p))
      by (simpl; destruct (Pos.to_uint p); [now elim Hp|reflexivity..]).
    rewrite E in *.
    change (NilEmpty.string_of_uint (Pos.to_uint p))
      with (("" ++ NilEmpty.string_of_uint (Pos.to_uint p))%string) at 1.
    rewrite (int_of_str_digits limit false _ Hp Hlim).
    unfold Z.of_uint. now rewrite DecimalPos.Unsigned.of_to.
  - unfold str_int in *. simpl Z.abs in Hlim. simpl Z.to_int in *.
    pose proof (DecimalPos.Unsigned.to_uint_nonnil p) as Hp.
    assert (E : NilZero.string_of_int (Decimal.Pos (Pos.to_uint p))
                = NilEmpty.string_of_uint (Pos.to_uint p))
      by (simpl; destruct (Pos.to_uint p); [now elim Hp|reflexivity..]).
    rewrite E in Hlim.
    replace (NilZero.string_of_int (Decimal.Neg (Pos.to_uint p)))
      with (("-" ++ NilEmpty.string_of_uint (Pos.to_uint p))%string)
      by (simpl; destruct (Pos.to_uint p); [now elim Hp|reflexivity..]).
    rewrite (int_of_str_digits limit true _ Hp Hlim).
    unfold Z.of_uint. now rewrite DecimalPos.Unsigned.of_to.
Qed.

Lemma zrange_In (n : nat) (z x : Z) :
  z <= x < z + Z.of_nat n -> In x (zrange n z).
Proof.
  revert z. induction n as [|n IH]; intros z Hx; [lia|].
  simpl. destruct (Z.eq_dec z x) as [->|Hne]; [now left|right].
  apply IH. lia.
Qed.

(** Integers from [-10000] to [10001] are written with few digits. *)
Lemma small_int_digits (n : Z) :
  -10000 <= n <= 10001 ->
  (length (chars (str_int (Z.abs n))) <= 640)%nat.
Proof.
  intros Hn.
  assert (H : forallb
                (fun k => Nat.leb (length (chars (str_int k))) 640)
                (zrange (Z.to_nat 10002) 0) = true) by (vm_compute; reflexivity).
  rewrite forallb_forall in H.
  apply Nat.leb_le, H, zrange_In. lia.
Qed.

Lemma few_digits_within_limit (limit : Z) (ndigits : nat) :
  (ndigits <= 640)%nat -> over_limit limit (Z.of_nat ndigits) = false.
Proof.
  intros H. unfold over_limit.
  replace (640 <? Z.of_nat ndigits) with false
    by (symmetry; apply Z.ltb_ge; lia).
  reflexivity.
Qed.

Lemma fact_factorial (n : nat) : fact n = Z.of_nat (Factorial.fact n).
Proof.
  induction n as [|n IH]; [reflexivity|].
  change (fact (S n)) with (Z.of_nat (S n) * fact n).
  change (Factorial.fact (S n)) with (S n * Factorial.fact n)%nat.
  rewrite IH. now rewrite Nat2Z.inj_mul.
Qed.

Lemma fact_positive (n : nat) : 0 < fact n.
Proof.
  induction n as [|n IH]; [reflexivity|].
  change (fact (S n)) with (Z.of_nat (S n) * fact n). lia.
Qed.

Lemma bigfact_spec (n : nat) : BigZ.to_Z (bigfact n) = fact n.
Proof.
  induction n as [|n IH]; [reflexivity|].
  change (bigfact (S n))
    with (BigZ.of_Z (Z.of_nat (S n)) * bigfact n)%bigZ.
  change (fact (S n)) with (Z.of_nat (S n) * fact n).
  now rewrite BigZ.spec_mul, BigZ.spec_of_Z, IH.
Qed.

(** [1558!] has at most 4300 digits and [1559!] has more. *)
Lemma factorial_digits_4300 :
  fact (Z.to_nat 1558) < 10 ^ 4300 <= fact (Z.to_nat 1559).
Proof.
  assert (H1 : (bigfact (Z.to_nat 1558) <? 10 ^ 4300)%bigZ = true)
    by (vm_compute; reflexivity).
  assert (H2 : (10 ^ 4300 <=? bigfact (Z.to_nat 1559))%bigZ = true)
    by (vm_compute; reflexivity).
  rewrite BigZ.spec_ltb, BigZ.spec_pow, bigfact_spec in H1.
  rewrite BigZ.spec_leb, BigZ.spec_pow, bigfact_spec in H2.
  change (BigZ.to_Z 10) with 10 in H1, H2.
  change (BigZ.to_Z 4300) with 4300 in H1, H2.
  split; [now apply Z.ltb_lt|now apply Z.leb_le].
Qed.

Lemma int_too_long_spec (limit z : Z) :
  0 <= z -> 0 < limit ->
  (10 ^ limit <= z -> 640 <= limit -> int_too_long limit z = true)
  /\ (z < 10 ^ limit -> int_too_long limit z = false).
Proof.
  intros Hz Hl. unfold int_too_long. rewrite Z.abs_eq by exact Hz.
  split.
  - intros Hbig Hmin.
    assert (Hpow : 10 ^ 640 <= 10 ^ limit)
      by (apply Z.pow_le_mono_r; [reflexivity|exact Hmin]).
    replace (10 ^ 640 <=? z) with true
      by (symmetry; apply Z.leb_le; exact (Z.le_trans _ _ _ Hpow Hbig)).
    replace (0 <? limit) with true by (symmetry; now apply Z.ltb_lt).
    now apply Z.leb_le.
  - intros Hsmall.
    replace (10 ^ limit <=? z) with false
      by (symmetry; apply Z.leb_gt; exact Hsmall).
    now destruct (10 ^ 640 <=? z), (0 <? limit).
Qed.

(** ** The memory buffer *)

Lemma add_all_turns (entries : list (string * string)) (m : Memory.t) :
  Memory.turns (add_all entries m)
  = Memory.turns m
    ++ map (fun e => {| Memory.role := fst e; Memory.content := snd e |}) entries.
Proof.
  revert m. induction entries as [|e entries IH]; intros m; simpl.
  - now rewrite List.app_nil_r.
  - unfold add_all in IH. rewrite IH. simpl. now rewrite <- List.app_assoc.
Qed.

(** C7. After [N] calls of [Memory.add] on a fresh buffer, [as_messages]
    returns the [N] turns in the order of the calls, each with the role and
    the content given to [add]; the call leaves the buffer as it was, so a
    second call returns the same list. *)
Theorem as_messages_after_adds (F : Type) (entries : list (string * string)) :
  let m := add_all entries Memory.new in
  fst (Memory.as_messages (F := F) m)
    = map (fun e => Turn (fst e) (snd e)) entries
  /\ length (fst (Memory.as_messages (F := F) m)) = length entries
  /\ snd (Memory.as_messages (F := F) m) = m
  /\ Memory.as_messages (F := F) (snd (Memory.as_messages (F := F) m))
     = Memory.as_messages (F := F) m.
Proof.
  intros m.
  assert (H : fst (Memory.as_messages (F := F) m)
              = map (fun e => Turn (fst e) (snd e)) entries).
  { unfold Memory.as_messages, m; simpl.
    rewrite add_all_turns; simpl. now rewrite map_map. }
  repeat split.
  - exact H.
  - now rewrite H, List.length_map.
Qed.

(** C9, as the code has it. [Memory.add] checks nothing: whatever the role
    string, the turn is appended at the end of the buffer; the roles in the
    buffer stay within the recognized ones as long as [add] is given a
    recognized role. *)
Theorem add_appends_any_role (role content : string) (m : Memory.t) :
  Memory.add role content m
    = (tt, {| Memory.turns :=
                Memory.turns m
                ++ [{| Memory.role := role; Memory.content := content |}] |})
  /\ (Forall recognized (Memory.turns m) ->
      In role recognized_roles ->
      Forall recognized (Memory.turns (snd (Memory.add role content m)))).
Proof.
  split; [reflexivity|].
  intros Hm Hr. simpl. apply Forall_app. split; [exact Hm|].
  constructor; [exact Hr|constructor].
Qed.

Lemma add_appends_any_role_witness :
  Forall recognized (Memory.turns Memory.new)
  /\ In "tool" recognized_roles
  /\ Forall recognized (Memory.turns (snd (Memory.add "tool" "42" Memory.new))).
Proof.
  assert (H1 : Forall recognized (Memory.turns Memory.new)) by constructor.
  assert (H2 : In "tool" recognized_roles) by (simpl; auto).
  split; [exact H1|split; [exact H2|]].
  exact (proj2 (add_appends_any_role "tool" "42" Memory.new) H1 H2).
Defined.

(** C9, as stated, fails: a role outside the recognized ones is stored. *)
Lemma add_stores_unrecognized_role :
  Memory.turns (snd (Memory.add "moderator" "hello" Memory.new))
    = [{| Memory.role := "moderator"; Memory.content := "hello" |}]
  /\ ~ In "moderator" recognized_roles.
Proof.
  split; [reflexivity|].
  simpl. intros [H|[H|[H|[H|[]]]]]; discriminate H.
Qed.

(** ** The math tool *)

Section MathTool.

Variable R : Runtime.

Local Abbreviation pyobj := (pyobj (float R)).
Local Abbreviation value := (value (float R)).

Lemma subset_allowed_chars (expression : string) :
  subset_allowed (map (fun c => PStr (F := float R) (String c "")) (chars expression))
  = forallb (fun c => existsb (Ascii.eqb c) allowed) (chars expression).
Proof.
  unfold subset_allowed.
  induction (chars expression) as [|c l IH]; simpl; [reflexivity|].
  now rewrite IH.
Qed.

Lemma disallowed_not_subset (expression : string) :
  (exists c, In c (chars expression) /\ ~ In c allowed) ->
  forallb (fun c => existsb (Ascii.eqb c) allowed) (chars expression) = false.
Proof.
  intros (c & Hin & Hout).
  apply not_true_is_false. intros H.
  rewrite forallb_forall in H. specialize (H c Hin).
  apply existsb_exists in H. destruct H as (c' & Hc' & Heq).
  apply Ascii.eqb_eq in Heq. subst c'. now apply Hout.
Qed.

Lemma evaluate_math_unfold (ev : string -> result value)
  (d : pydict.t pyobj) (expression mode : pyobj) :
  pydict.get d "expression" = Some expression ->
  pydict.get d "mode" = Some mode ->
  evaluate_math_with R ev (PDict d)
  = evaluate_math_with R ev (math_request expression mode).
Proof.
  intros He Hm. unfold evaluate_math_with, math_request, subscript,
    pydict.getitem.
  rewrite He, Hm. reflexivity.
Qed.

(** C4. In mode [eval], an expression with a character outside
    [0123456789+-*/(). ] gives the disallowed-characters message; this
    holds for every evaluator put in the place of [eval], so what the
    evaluator would do with the text plays no part, and in particular
    for the one of the interpreter. *)
Theorem eval_rejects_disallowed_characters
  (ev : string -> result value) (d : pydict.t pyobj) (expression : string) :
  pydict.get d "expression" = Some (PStr expression) ->
  pydict.get d "mode" = Some (PStr "eval") ->
  (exists c, In c (chars expression) /\ ~ In c allowed) ->
  evaluate_math_with R ev (PDict d) = Ok "Error: disallowed characters"
  /\ evaluate_math R (PDict d) = Ok "Error: disallowed characters".
Proof.
  intros He Hm Hbad.
  assert (H : forall ev', evaluate_math_with R ev' (PDict d)
                          = Ok "Error: disallowed characters").
  { intros ev'. rewrite (evaluate_math_unfold ev' d _ _ He Hm).
    unfold evaluate_math_with, math_request. simpl.
    rewrite subset_allowed_chars, (disallowed_not_subset _ Hbad).
    reflexivity. }
  split; [apply H|apply (H (py_eval R))].
Qed.

(** Mode [factorial], with [n] what [int()] makes of the expression and
    [fact n] its factorial ([fact_factorial]).
    For [0 <= n <= 10000] the result is the decimal text of [n!], unless
    [n!] has more digits than the interpreter converts, in which case it is
    the error string made from the [ValueError] of [str]; for [n < 0] or
    [n > 10000] it is the out-of-range message; when [int()] raises, it is
    an error string. The decimal text of an integer within the bound is
    read back by [int()] as that integer. *)
Lemma factorial_mode (d : pydict.t pyobj) (expression : pyobj) :
  pydict.get d "expression" = Some expression ->
  pydict.get d "mode" = Some (PStr "factorial") ->
  (forall n, py_int R expression = Ok n -> 0 <= n <= 10000 ->
     evaluate_math R (PDict d)
     = Ok (if int_too_long (int_max_str_digits R) (fact (Z.to_nat n))
           then ("Error: " ++ exn_text R ValueError)%string
           else str_int (fact (Z.to_nat n))))
  /\ (forall n, py_int R expression = Ok n -> n < 0 \/ n > 10000 ->
       evaluate_math R (PDict d) = Ok "Error: n out of range")
  /\ (forall e, py_int R expression = Raise e ->
       evaluate_math R (PDict d) = Ok ("Error: " ++ exn_text R e)%string)
  /\ (forall n, -10000 <= n <= 10001 -> py_int R (PStr (str_int n)) = Ok n).
Proof.
  intros He Hm.
  assert (H : evaluate_math R (PDict d)
              = Ok (try_return R
                      (rbind (py_int R expression) (fun n =>
                         if (n <? 0) || (n >? 10000)
                         then Ok "Error: n out of range"
                         else rbind (math_factorial n)
                                (py_str_int (int_max_str_digits R)))))).
  { unfold evaluate_math. now rewrite (evaluate_math_unfold _ d _ _ He Hm). }
  rewrite H. repeat split.
  - intros n Hn Hr. rewrite Hn. simpl.
    replace (n <? 0) with false by (symmetry; apply Z.ltb_ge; lia).
    replace (n >? 10000) with false
      by (symmetry; rewrite Z.gtb_ltb; apply Z.ltb_ge; lia).
    simpl. unfold math_factorial.
    replace (n <? 0) with false by (symmetry; apply Z.ltb_ge; lia).
    simpl. unfold py_str_int.
    now destruct (int_too_long _ _).
  - intros n Hn Hr. rewrite Hn. simpl.
    destruct Hr as [Hr|Hr].
    + replace (n <? 0) with true by (symmetry; apply Z.ltb_lt; lia).
      reflexivity.
    + replace (n >? 10000) with true
        by (symmetry; rewrite Z.gtb_ltb; apply Z.ltb_lt; lia).
      now rewrite orb_true_r.
  - intros e Hn. rewrite Hn. reflexivity.
  - intros n Hn. apply int_of_str_str_int, few_digits_within_limit.
    now apply small_int_digits.
Qed.

(** C6. In mode [eval]: ["2 + 3 * 4"] gives ["14"], ["(2+3)*4"] gives
    ["20"], and ["1/0"] gives the error string made from the
    [ZeroDivisionError] the division raises. The first two are parsed
    with [*] below [+] and with the parentheses as a group. *)
Theorem eval_examples :
  evaluate_math R (math_request (PStr "2 + 3 * 4") (PStr "eval")) = Ok "14"
  /\ evaluate_math R (math_request (PStr "(2+3)*4") (PStr "eval")) = Ok "20"
  /\ evaluate_math R (math_request (PStr "1/0") (PStr "eval"))
     = Ok ("Error: " ++ exn_text R ZeroDivisionError)%string
  /\ parse (tokenize (int_max_str_digits R) "2 + 3 * 4")
     = Some (EBin Add (EInt 2) (EBin Mul (EInt 3) (EInt 4)))
  /\ parse (tokenize (int_max_str_digits R) "(2+3)*4")
     = Some (EBin Mul (EBin Add (EInt 2) (EInt 3)) (EInt 4))
  /\ py_eval R "1/0" = Raise ZeroDivisionError.
Proof.
  repeat split.
Qed.

Lemma eq_str_true (x : pyobj) (s : string) :
  eq_str x s = true <-> x = PStr s.
Proof.
  destruct x; simpl; split; try discriminate.
  - intros H. apply String.eqb_eq in H. now subst.
  - intros [= ->]. apply String.eqb_refl.
Qed.

(** C3, as the code has it. On a payload that carries both keys, with a
    string as expression, [evaluate_math] returns a string and raises
    nothing: an exception of [float()], [math.sqrt], [int()] or [eval]
    is turned into the text ["Error: "] followed by its message, and a
    mode that is none of the three gives the unknown-mode message. *)
Theorem evaluate_math_returns_string
  (d : pydict.t pyobj) (expression : string) (mode : pyobj) :
  pydict.get d "expression" = Some (PStr expression) ->
  pydict.get d "mode" = Some mode ->
  exists s,
    evaluate_math R (PDict d) = Ok s
    /\ (forall e, mode = PStr "sqrt" ->
         rbind (float_of_str R expression) (math_sqrt R) = Raise e ->
         s = ("Error: " ++ exn_text R e)%string)
    /\ (forall e, mode = PStr "factorial" ->
         int_of_str (int_max_str_digits R) expression = Raise e ->
         s = ("Error: " ++ exn_text R e)%string)
    /\ (forall e, mode = PStr "eval" ->
         forallb (fun c => existsb (Ascii.eqb c) allowed) (chars expression)
           = true ->
         py_eval R expression = Raise e ->
         s = ("Error: " ++ exn_text R e)%string)
    /\ (mode <> PStr "sqrt" -> mode <> PStr "factorial" ->
        mode <> PStr "eval" -> s = "Error: unknown mode").
Proof.
  intros He Hm. unfold evaluate_math.
  rewrite (evaluate_math_unfold _ d _ _ He Hm).
  unfold evaluate_math_with, math_request. simpl.
  destruct (eq_str mode "sqrt") eqn:E1;
    [|destruct (eq_str mode "factorial") eqn:E2;
      [|destruct (eq_str mode "eval") eqn:E3]].
  - apply eq_str_true in E1. subst mode. eexists. split; [reflexivity|].
    repeat split; try discriminate; try congruence.
    intros e _ H. destruct (float_of_str R expression) as [x|e']; simpl in *.
    + now rewrite H.
    + now inversion H.
  - apply eq_str_true in E2. subst mode. eexists. split; [reflexivity|].
    repeat split; try discriminate; try congruence.
    intros e _ H. now rewrite H.
  - apply eq_str_true in E3. subst mode.
    rewrite subset_allowed_chars.
    destruct (forallb _ (chars expression)) eqn:E4; simpl;
      eexists; (split; [reflexivity|]);
      repeat split; try discriminate; try congruence.
    intros e _ _ H. now rewrite H.
  - eexists. split; [reflexivity|].
    repeat split; try (intros e Hmode; subst mode; discriminate).
  Qed.

End MathTool.

(** ** The parser has budget enough *)

Ltac parser_step IHo IHr :=
  match goal with
  | |- context [match ?x with _ => _ end] => is_var x; destruct x
  | |- context [match parse_operand ?f ?l ?t with _ => _ end] =>
      let H := fresh "H" in
      assert (H : (length t < f)%nat) by (simpl in *; lia);
      generalize (IHo l t H); clear H;
      destruct (parse_operand f l t) as [[? ?]| |]; intro
  | |- context [match parse_rest ?f ?l ?e ?t with _ => _ end] =>
      let H := fresh "H" in
      assert (H : (length t < f)%nat) by (simpl in *; lia);
      generalize (IHr l e t H); clear H;
      destruct (parse_rest f l e t) as [[? ?]| |]; intro
  | |- context [binary_op ?t] => destruct (binary_op t) as [[[? ?] ?]|]
  | |- context [(?a <=? ?b)%nat] => destruct (a <=? b)%nat
  end; cbn in *; try lia; try tauto.

Lemma parser_budget (fuel : nat) :
  (forall lvl toks, (length toks < fuel)%nat ->
     match parse_operand fuel lvl toks with
     | POk (_, rest) => (length rest < length toks)%nat
     | PErr => True
     | PFuel => False
     end)
  /\ (forall lvl lhs toks, (length toks < fuel)%nat ->
        match parse_rest fuel lvl lhs toks with
        | POk (_, rest) => (length rest <= length toks)%nat
        | PErr => True
        | PFuel => False
        end).
Proof.
  induction fuel as [|fuel [IHo IHr]]; [split; intros; lia|].
  split.
  - intros lvl toks Hlen. destruct toks as [|t toks]; cbn in *; [exact I|].
    repeat parser_step IHo IHr.
  - intros lvl lhs toks Hlen. destruct toks as [|t toks]; cbn in *; [lia|].
    repeat parser_step IHo IHr.
Qed.

(** [parse] never stops for lack of budget: it rejects the text only when
    the text is not in the grammar. *)
Lemma parse_operand_budget (toks : list token) :
  parse_operand (S (length toks)) 0 toks <> PFuel.
Proof.
  intros H. pose proof (proj1 (parser_budget (S (length toks))) 0%nat toks) as B.
  rewrite H in B. apply B. lia.
Qed.

(** ** The dispatch loop and [Agent.solve] *)

Section AgentProps.

Variable R : Runtime.

Local Abbreviation F := (float R).
Local Abbreviation agent := (Agent.t F).

Lemma dispatch_call_shape (registry : pydict.t (ToolSpec.t F))
  (call : ToolCall.t F) (m : message_param F) :
  Agent.dispatch_call R registry call = Ok m ->
  exists content,
    m = ToolResult (ToolCall.id call)
          (Function.name (ToolCall.function call)) content.
Proof.
  unfold Agent.dispatch_call, rbind.
  destruct (Agent.parsed_arguments R _); [|discriminate].
  destruct (pydict.getitem registry _); [|discriminate].
  destruct (ToolSpec.handler _ _) as [content|]; [|discriminate].
  intros [= <-]. now exists content.
Qed.

Lemma dispatch_app (registry : pydict.t (ToolSpec.t F))
  (pre post : list (ToolCall.t F)) (messages : list (message_param F)) :
  Agent.dispatch R registry (pre ++ post) messages
  = rbind (Agent.dispatch R registry pre messages)
      (fun messages1 => Agent.dispatch R registry post messages1).
Proof.
  revert messages. induction pre as [|c pre IH]; intros messages; simpl.
  - reflexivity.
  - destruct (Agent.dispatch_call R registry c); simpl; [apply IH|reflexivity].
Qed.

(** A loop that ends normally has appended one result message per call,
    in the order of the calls, after the messages it started from. *)
Lemma dispatch_results (registry : pydict.t (ToolSpec.t F))
  (calls : list (ToolCall.t F)) (messages messages' : list (message_param F)) :
  Agent.dispatch R registry calls messages = Ok messages' ->
  exists results,
    messages' = messages ++ results
    /\ length results = length calls
    /\ forall i c, nth_error calls i = Some c ->
         exists content,
           nth_error results i
           = Some (ToolResult (ToolCall.id c)
                     (Function.name (ToolCall.function c)) content).
Proof.
  revert messages. induction calls as [|c calls IH]; intros messages; simpl.
  - intros [= <-]. exists []. rewrite List.app_nil_r.
    repeat split. intros [|i] c' H; discriminate H.
  - destruct (Agent.dispatch_call R registry c) as [m|] eqn:Ec; simpl;
      [|discriminate].
    intros H. destruct (IH _ H) as (results & -> & Hlen & Hnth).
    exists (m :: results). rewrite <- List.app_assoc.
    repeat split; simpl; [now rewrite Hlen|].
    intros [|i] c' Hc'; simpl in *.
    + injection Hc' as <-. destruct (dispatch_call_shape _ _ _ Ec) as (content & ->).
      now exists content.
    + now apply Hnth.
Qed.

(** C8. A call of [solve] that returns has added one turn to the
    memory, at its end: role [assistant], content the answer returned.
    Nothing else of the agent has changed, so no result of a tool has
    been stored. *)
Theorem solve_success_appends_answer (a a' : agent) (question : string)
  (replies : list (result (Response.t F))) (final : string)
  (requests : list (Request.t F)) :
  run (Agent.solve R question a) replies = Some ((Ok final, a'), requests) ->
  Memory.turns (Agent.memory a')
    = Memory.turns (Agent.memory a)
      ++ [{| Memory.role := "assistant"; Memory.content := final |}]
  /\ Agent.tools a' = Agent.tools a
  /\ Agent.settings a' = Agent.settings a.
Proof.
  destruct a as [s mem registry].
  unfold Agent.solve, Agent.bind. cbn. intros H.
  destruct replies as [|[first|e] rest]; cbn in H; try discriminate H.
  destruct (Agent.first_message R first) as [msg|e]; cbn in H;
    [|discriminate H].
  destruct (Message.tool_calls msg) as [[|call calls]|]; cbn in H;
    try (injection H as <- <- _; now repeat split).
  destruct (rbind (Agent.dispatch_call R registry call) _) as [messages'|e];
    cbn in H; [|discriminate H].
  destruct rest as [|[second|e] rest]; cbn in H; try discriminate H.
  destruct (Agent.first_message R second) as [msg2|e]; cbn in H;
    [|discriminate H].
  injection H as <- <- _. now repeat split.
Qed.

(** The run of [solve] when the first reply asks for tools and the
    loop raises: the exception leaves [solve] after one request. *)
Lemma solve_dispatch_raises (a : agent) (question : string)
  (first : Response.t F) (msg : Message.t F)
  (call : ToolCall.t F) (calls : list (ToolCall.t F)) (e : exn)
  (rest : list (result (Response.t F))) :
  Agent.first_message R first = Ok msg ->
  Message.tool_calls msg = Some (call :: calls) ->
  Agent.dispatch R (Agent.tools a) (call :: calls)
    (first_pass_messages R a question) = Raise e ->
  run (Agent.solve R question a) (Ok first :: rest)
  = Some ((Raise e, a), [first_pass_request R a question]).
Proof.
  destruct a as [s mem registry].
  unfold first_pass_request, first_pass_messages.
  unfold Agent.solve, Agent.bind. cbn. intros Hm Hc Hd.
  rewrite Hm. cbn. rewrite Hc. cbn.
  unfold Agent.first_messages in Hd. cbn in Hd. rewrite Hd. reflexivity.
Qed.

(** The run of [solve] when the first reply asks for tools and the
    loop ends normally: a second request is sent, made of the messages
    the loop leaves followed by the assistant turn with the calls; an
    exception of the second call leaves [solve]. *)
Lemma solve_second_pass (a : agent) (question : string)
  (first : Response.t F) (msg : Message.t F)
  (call : ToolCall.t F) (calls : list (ToolCall.t F))
  (messages' : list (message_param F))
  (reply2 : result (Response.t F)) (rest : list (result (Response.t F))) :
  Agent.first_message R first = Ok msg ->
  Message.tool_calls msg = Some (call :: calls) ->
  Agent.dispatch R (Agent.tools a) (call :: calls)
    (first_pass_messages R a question) = Ok messages' ->
  exists out,
    run (Agent.solve R question a) (Ok first :: reply2 :: rest)
    = Some (out, [first_pass_request R a question;
                  Agent.second_request R (Agent.settings a) messages'
                    (call :: calls)])
    /\ forall e, reply2 = Raise e -> out = (Raise e, a).
Proof.
  destruct a as [s mem registry].
  unfold first_pass_request, first_pass_messages.
  unfold Agent.solve, Agent.bind. cbn. intros Hm Hc Hd.
  rewrite Hm. cbn. rewrite Hc. cbn.
  unfold Agent.first_messages in Hd. cbn in Hd. rewrite Hd. cbn.
  destruct reply2 as [second|e2]; cbn.
  - destruct (Agent.first_message R second); cbn;
      eexists; (split; [reflexivity|]); intros e' [=].
  - eexists. split; [reflexivity|]. now intros e' [= ->].
Qed.

(** C10. When the first call of the completion API raises, or the
    second one does after a loop that ended normally, [solve] raises
    that exception and the agent, its memory included, is as before
    the call. *)
Theorem solve_api_failure_keeps_memory (a : agent) (question : string)
  (e : exn) (rest : list (result (Response.t F))) :
  run (Agent.solve R question a) (Raise e :: rest)
    = Some ((Raise e, a), [first_pass_request R a question])
  /\ forall first msg call calls messages',
       Agent.first_message R first = Ok msg ->
       Message.tool_calls msg = Some (call :: calls) ->
       Agent.dispatch R (Agent.tools a) (call :: calls)
         (first_pass_messages R a question) = Ok messages' ->
       run (Agent.solve R question a) (Ok first :: Raise e :: rest)
       = Some ((Raise e, a),
               [first_pass_request R a question;
                Agent.second_request R (Agent.settings a) messages'
                  (call :: calls)]).
Proof.
  split.
  - destruct a as [s mem registry]. reflexivity.
  - intros first msg call calls messages' Hm Hc Hd.
    destruct (solve_second_pass a question first msg call calls messages' (Raise e) rest Hm Hc Hd)
      as (out & Hrun & Hout).
    now rewrite Hrun, (Hout e eq_refl).
Qed.

(** The messages of the second request, when the first reply asks for
    tools and the loop ends normally: the messages of the first request;
    then one result turn per call, in the order of the calls, so the
    result of a call comes before the results of the calls after it;
    then, last, the assistant turn that carries the calls. *)
Theorem second_pass_message_order (a : agent) (question : string)
  (first : Response.t F) (msg : Message.t F)
  (call : ToolCall.t F) (calls : list (ToolCall.t F))
  (messages' : list (message_param F))
  (reply2 : result (Response.t F)) (rest : list (result (Response.t F))) :
  Agent.first_message R first = Ok msg ->
  Message.tool_calls msg = Some (call :: calls) ->
  Agent.dispatch R (Agent.tools a) (call :: calls)
    (first_pass_messages R a question) = Ok messages' ->
  exists out second,
    run (Agent.solve R question a) (Ok first :: reply2 :: rest)
    = Some (out, [first_pass_request R a question; second])
    /\ let sent := Request.messages second in
       let n := length (first_pass_messages R a question) in
       firstn n sent = first_pass_messages R a question
       /\ (forall i c, nth_error (call :: calls) i = Some c ->
            exists content,
              nth_error sent (n + i)
              = Some (ToolResult (ToolCall.id c)
                        (Function.name (ToolCall.function c)) content))
       /\ nth_error sent (n + length (call :: calls))
          = Some (ToolRequest (call :: calls))
       /\ length sent = (n + length (call :: calls) + 1)%nat.
Proof.
  intros Hm Hc Hd.
  destruct (solve_second_pass a question first msg call calls messages' reply2 rest Hm Hc Hd)
    as (out & Hrun & _).
  destruct (dispatch_results _ _ _ _ Hd) as (results & -> & Hlen & Hnth).
  exists out, (Agent.second_request R (Agent.settings a)
                 (first_pass_messages R a question ++ results)
                 (call :: calls)).
  split; [exact Hrun|]. cbn zeta.
  change (Request.messages (Agent.second_request R (Agent.settings a)
            (first_pass_messages R a question ++ results) (call :: calls)))
    with ((first_pass_messages R a question ++ results)
          ++ [ToolRequest (call :: calls)]).
  rewrite <- List.app_assoc.
  repeat split.
  - now rewrite firstn_app, Nat.sub_diag, firstn_all, List.app_nil_r.
  - intros i c Hc'. destruct (Hnth i c Hc') as (content & Hr).
    exists content.
    rewrite nth_error_app2 by lia.
    replace (length (first_pass_messages R a question) + i
             - length (first_pass_messages R a question))%nat with i by lia.
    rewrite nth_error_app1; [exact Hr|].
    apply nth_error_Some. now rewrite Hr.
  - rewrite nth_error_app2 by lia.
    rewrite nth_error_app2 by lia.
    rewrite <- Hlen.
    replace (_ - _ - _)%nat with 0%nat by lia. reflexivity.
  - rewrite !length_app, Hlen. simpl. lia.
Qed.

(** C1, as the code has it. A call that names a tool absent from the
    registry, reached after the calls before it were dispatched and
    with arguments that decode, makes the loop raise [KeyError] for
    that name; [solve] raises it too: no result turn is made for the
    call, no second request is sent and the agent is unchanged. *)
Theorem unknown_tool_raises_key_error (a : agent) (question : string)
  (first : Response.t F) (msg : Message.t F)
  (pre post : list (ToolCall.t F)) (call : ToolCall.t F)
  (messages1 : list (message_param F)) (parsed : pyobj F)
  (rest : list (result (Response.t F))) :
  let name := Function.name (ToolCall.function call) in
  Agent.first_message R first = Ok msg ->
  Message.tool_calls msg = Some (pre ++ call :: post) ->
  Agent.dispatch R (Agent.tools a) pre (first_pass_messages R a question)
    = Ok messages1 ->
  Agent.parsed_arguments R (Function.arguments (ToolCall.function call))
    = Ok parsed ->
  pydict.get (Agent.tools a) name = None ->
  Agent.dispatch R (Agent.tools a) (pre ++ call :: post)
    (first_pass_messages R a question) = Raise (KeyError name)
  /\ run (Agent.solve R question a) (Ok first :: rest)
     = Some ((Raise (KeyError name), a), [first_pass_request R a question]).
Proof.
  intros name Hm Hc Hpre Hargs Hget.
  assert (Hd : Agent.dispatch R (Agent.tools a) (pre ++ call :: post)
                 (first_pass_messages R a question) = Raise (KeyError name)).
  { rewrite dispatch_app, Hpre. simpl.
    unfold Agent.dispatch_call. rewrite Hargs. simpl.
    unfold pydict.getitem. fold name. now rewrite Hget. }
  split; [exact Hd|].
  destruct (pre ++ call :: post) as [|c0 cs] eqn:E.
  - destruct pre; discriminate E.
  - now apply (solve_dispatch_raises a question first msg c0 cs (KeyError name) rest Hm Hc).
Qed.

End AgentProps.

(** ** Concrete runs *)

(** C1, as stated, fails: the model asks for a tool that is not
    registered, and [solve] raises [KeyError] after its first request. *)
Lemma unknown_tool_crashes_solve :
  run (Agent.solve sample_runtime "Weather in Oslo?" sample_agent)
      [Ok (tool_reply [call_unknown]); Ok (text_reply "Sunny.")]
  = Some ((Raise (KeyError "lookup_weather"), sample_agent),
          [first_pass_request sample_runtime sample_agent "Weather in Oslo?"]).
Proof. reflexivity. Qed.

Lemma unknown_tool_raises_key_error_witness :
  Agent.dispatch sample_runtime (Agent.tools sample_agent)
    ([call_A] ++ call_unknown :: [call_B])
    (first_pass_messages sample_runtime sample_agent "q")
  = Raise (KeyError "lookup_weather")
  /\ run (Agent.solve sample_runtime "q" sample_agent)
       [Ok (tool_reply ([call_A] ++ call_unknown :: [call_B]))]
     = Some ((Raise (KeyError "lookup_weather"), sample_agent),
             [first_pass_request sample_runtime sample_agent "q"]).
Proof.
  refine (unknown_tool_raises_key_error sample_runtime sample_agent "q"
            (tool_reply ([call_A] ++ call_unknown :: [call_B]))
            _ [call_A] [call_B] call_unknown _ _ []
            eq_refl eq_refl eq_refl eq_refl eq_refl).
Defined.

(** C2 on a reply with two calls, A then B. The second request carries
    the result turn of A before the result turn of B, but the assistant
    turn with the two calls is its last message, after both result turns
    and not before them. *)
Theorem assistant_turn_after_results :
  option_map (fun x => map (@Request.messages unit) (snd x))
    (run (Agent.solve sample_runtime "q" sample_agent)
         [Ok (tool_reply [call_A; call_B]); Ok (text_reply "Done.")])
  = Some [ [Turn "system" Agent.sys; Turn "user" "q"];
           [Turn "system" Agent.sys; Turn "user" "q";
            ToolResult "call_A" "evaluate_math" "14";
            ToolResult "call_B" "evaluate_math" "120";
            ToolRequest [call_A; call_B]] ].
Proof. reflexivity. Qed.

Lemma second_pass_message_order_example :
  exists out second,
    run (Agent.solve sample_runtime "q" sample_agent)
        [Ok (tool_reply [call_A; call_B]); Ok (text_reply "Done.")]
    = Some (out, [first_pass_request sample_runtime sample_agent "q"; second])
    /\ firstn 2 (Request.messages second)
       = first_pass_messages sample_runtime sample_agent "q"
    /\ (forall i c, nth_error [call_A; call_B] i = Some c ->
         exists content,
           nth_error (Request.messages second) (2 + i)
           = Some (ToolResult (ToolCall.id c)
                     (Function.name (ToolCall.function c)) content))
    /\ nth_error (Request.messages second) 4 = Some (ToolRequest [call_A; call_B])
    /\ length (Request.messages second) = 5%nat.
Proof.
  exact (second_pass_message_order sample_runtime sample_agent "q"
           (tool_reply [call_A; call_B]) _ call_A [call_B] _
           (Ok (text_reply "Done.")) [] eq_refl eq_refl eq_refl).
Qed.

(** C3, as stated, fails: a payload without the key [expression] makes
    [evaluate_math] raise [KeyError], and so does one without [mode]. *)
Lemma evaluate_math_missing_key_raises :
  evaluate_math sample_runtime (PDict [("mode", PStr "eval")])
    = Raise (KeyError "expression")
  /\ evaluate_math sample_runtime (PDict [("expression", PStr "1+1")])
     = Raise (KeyError "mode").
Proof. split; reflexivity. Qed.

Lemma evaluate_math_returns_string_witness :
  exists s,
    evaluate_math sample_runtime (math_request (PStr "1/0") (PStr "eval")) = Ok s
    /\ s = ("Error: " ++ exn_text sample_runtime ZeroDivisionError)%string.
Proof.
  destruct (evaluate_math_returns_string sample_runtime
              [("expression", PStr "1/0"); ("mode", PStr "eval")]
              "1/0" (PStr "eval") eq_refl eq_refl)
    as (s & Hs & _ & _ & Heval & _).
  exists s. split; [exact Hs|].
  exact (Heval ZeroDivisionError eq_refl eq_refl eq_refl).
Defined.

Lemma eval_rejects_disallowed_characters_witness :
  evaluate_math_with sample_runtime (fun _ => Ok (VInt 0))
    (math_request (PStr "2+x") (PStr "eval"))
    = Ok "Error: disallowed characters"
  /\ evaluate_math sample_runtime (math_request (PStr "2+x") (PStr "eval"))
     = Ok "Error: disallowed characters".
Proof.
  apply (eval_rejects_disallowed_characters sample_runtime
           (fun _ => Ok (VInt 0))
           [("expression", PStr "2+x"); ("mode", PStr "eval")] "2+x"
           eq_refl eq_refl).
  exists "x"%char. split.
  - simpl. auto.
  - simpl. intuition discriminate.
Defined.

(** Four calls in mode [factorial]. *)
Lemma factorial_mode_examples :
  evaluate_math sample_runtime (math_request (PStr "5") (PStr "factorial"))
    = Ok "120"
  /\ evaluate_math sample_runtime (math_request (PStr "-1") (PStr "factorial"))
     = Ok "Error: n out of range"
  /\ evaluate_math sample_runtime (math_request (PStr "10001") (PStr "factorial"))
     = Ok "Error: n out of range"
  /\ evaluate_math sample_runtime (math_request (PStr "five") (PStr "factorial"))
     = Ok "Error: ValueError".
Proof.
  split; [|split; [|split]].
  - exact (proj1 (factorial_mode sample_runtime
                    [("expression", PStr "5"); ("mode", PStr "factorial")]
                    (PStr "5") eq_refl eq_refl)
             5 eq_refl (conj (proj1 (Z.leb_le 0 5) eq_refl)
                             (proj1 (Z.leb_le 5 10000) eq_refl))).
  - exact (proj1 (proj2 (factorial_mode sample_runtime
                    [("expression", PStr "-1"); ("mode", PStr "factorial")]
                    (PStr "-1") eq_refl eq_refl))
             (-1) eq_refl (or_introl eq_refl)).
  - exact (proj1 (proj2 (factorial_mode sample_runtime
                    [("expression", PStr "10001"); ("mode", PStr "factorial")]
                    (PStr "10001") eq_refl eq_refl))
             10001 eq_refl (or_intror eq_refl)).
  - exact (proj1 (proj2 (proj2 (factorial_mode sample_runtime
                    [("expression", PStr "five"); ("mode", PStr "factorial")]
                    (PStr "five") eq_refl eq_refl)))
             ValueError eq_refl).
Qed.

Lemma solve_success_appends_answer_witness :
  Memory.turns
    (Agent.memory
       (snd (fst
          (match run (Agent.solve sample_runtime "q" sample_agent)
                     [Ok (tool_reply [call_A]); Ok (text_reply " 14 ")]
           with
           | Some x => x
           | None => ((Raise IndexError, sample_agent), [])
           end))))
  = [{| Memory.role := "assistant"; Memory.content := "14" |}].
Proof.
  exact (proj1 (solve_success_appends_answer sample_runtime sample_agent _ "q"
                  [Ok (tool_reply [call_A]); Ok (text_reply " 14 ")] "14" _
                  eq_refl)).
Defined.

Lemma solve_api_failure_keeps_memory_witness :
  run (Agent.solve sample_runtime "q" sample_agent)
      [Raise (OtherError "APIConnectionError")]
    = Some ((Raise (OtherError "APIConnectionError"), sample_agent),
            [first_pass_request sample_runtime sample_agent "q"])
  /\ option_map fst
       (run (Agent.solve sample_runtime "q" sample_agent)
            [Ok (tool_reply [call_A]); Raise (OtherError "RateLimitError")])
     = Some (Raise (OtherError "RateLimitError"), sample_agent).
Proof.
  destruct (solve_api_failure_keeps_memory sample_runtime sample_agent "q"
              (OtherError "APIConnectionError") []) as [H1 _].
  destruct (solve_api_failure_keeps_memory sample_runtime sample_agent "q"
              (OtherError "RateLimitError") []) as [_ H2].
  split; [exact H1|].
  exact (f_equal (option_map fst)
           (H2 (tool_reply [call_A]) _ call_A [] _ eq_refl eq_refl eq_refl)).
Defined.

(** C5 at the bound on digits. With the interpreter converting integers of
    at most 4300 digits, as it does unless told otherwise, the tool still
    writes out [1558!], but for [1559], within the range the tool accepts,
    it returns the error string made from the [ValueError] of [str]
    instead of the digits of [1559!]. *)
Theorem factorial_beyond_digit_limit :
  evaluate_math sample_runtime (math_request (PStr "1559") (PStr "factorial"))
    = Ok "Error: ValueError"
  /\ evaluate_math sample_runtime (math_request (PStr "1558") (PStr "factorial"))
     = Ok (str_int (fact (Z.to_nat 1558)))
  /\ fact (Z.to_nat 1558) < 10 ^ 4300 <= fact (Z.to_nat 1559).
Proof.
  pose proof factorial_digits_4300 as [Hlo Hhi].
  pose proof (fact_positive (Z.to_nat 1558)) as Hp1.
  pose proof (fact_positive (Z.to_nat 1559)) as Hp2.
  pose proof (proj1 (factorial_mode sample_runtime
                       [("expression", PStr "1559"); ("mode", PStr "factorial")]
                       (PStr "1559") eq_refl eq_refl)
                1559 eq_refl (conj (proj1 (Z.leb_le 0 1559) eq_refl)
                                   (proj1 (Z.leb_le 1559 10000) eq_refl)))
    as E1.
  pose proof (proj1 (factorial_mode sample_runtime
                       [("expression", PStr "1558"); ("mode", PStr "factorial")]
                       (PStr "1558") eq_refl eq_refl)
                1558 eq_refl (conj (proj1 (Z.leb_le 0 1558) eq_refl)
                                   (proj1 (Z.leb_le 1558 10000) eq_refl)))
    as E2.
  revert Hlo Hhi Hp1 Hp2 E1 E2.
  generalize (fact (Z.to_nat 1558)) (fact (Z.to_nat 1559)).
  intros f1 f2 Hlo Hhi Hp1 Hp2 E1 E2.
  change (int_max_str_digits sample_runtime) with 4300 in E1, E2.
  rewrite (proj1 (int_too_long_spec 4300 f2 (Z.lt_le_incl _ _ Hp2) eq_refl)
             Hhi (proj1 (Z.leb_le 640 4300) eq_refl)) in E1.
  rewrite (proj2 (int_too_long_spec 4300 f1 (Z.lt_le_incl _ _ Hp1) eq_refl)
             Hlo) in E2.
  split; [exact E1|split; [exact E2|split; assumption]].
Qed.

(** * Further properties *)

(** ** White space *)

Lemma drop_while_split {A} (p : A -> bool) (l : list A) :
  exists pre, l = pre ++ drop_while p l /\ Forall (fun x => p x = true) pre.
Proof.
  induction l as [|x l (pre & E & Hp)]; simpl.
  - exists []. split; [reflexivity|constructor].
  - destruct (p x) eqn:Hx.
    + exists (x :: pre). split; [simpl; now rewrite <- E|now constructor].
    + exists []. split; [reflexivity|constructor].
Qed.

Lemma drop_while_head {A} (p : A -> bool) (l : list A) (x : A) (l' : list A) :
  drop_while p l = x :: l' -> p x = false.
Proof.
  induction l as [|y l IH]; simpl; [discriminate|].
  destruct (p y) eqn:Hy; [exact IH|].
  now intros [= <- _].
Qed.

(** What [strip_with] leaves is the list without a prefix and a suffix
    made of the characters to drop, and it starts and ends with none. *)
Lemma strip_with_spec (p : ascii -> bool) (l : list ascii) :
  exists pre post,
    l = pre ++ strip_with p l ++ post
    /\ Forall (fun c => p c = true) pre
    /\ Forall (fun c => p c = true) post
    /\ (forall c t, strip_with p l = c :: t -> p c = false)
    /\ (forall c t, strip_with p l = t ++ [c] -> p c = false).
Proof.
  unfold strip_with.
  destruct (drop_while_split p l) as (pre & E1 & Hpre).
  destruct (drop_while_split p (rev (drop_while p l))) as (rpost & E2 & Hpost).
  set (l1 := drop_while p l) in *.
  set (l2 := drop_while p (rev l1)) in *.
  assert (E3 : l1 = rev l2 ++ rev rpost).
  { rewrite <- rev_app_distr, <- E2. symmetry. apply rev_involutive. }
  exists pre, (rev rpost). repeat split.
  - now rewrite <- E3.
  - exact Hpre.
  - now apply Forall_rev.
  - intros c t Hc.
    destruct l1 as [|x l1'] eqn:El1.
    + destruct l2; [discriminate Hc|].
      apply (f_equal (@length ascii)) in E3.
      rewrite length_app in E3. simpl in E3. rewrite length_app in E3.
      simpl in E3. lia.
    + assert (Hx : p x = false) by (apply (drop_while_head p l x l1'); exact El1).
      rewrite Hc in E3. simpl in E3. now injection E3 as <- _.
  - intros c t Hc.
    apply (f_equal (@rev ascii)) in Hc.
    rewrite rev_involutive, rev_app_distr in Hc. simpl in Hc.
    exact (drop_while_head p (rev l1) c (rev t) Hc).
Qed.

Lemma strip_with_fixed (p : ascii -> bool) (l : list ascii) :
  (forall c t, l = c :: t -> p c = false) ->
  (forall c t, l = t ++ [c] -> p c = false) ->
  strip_with p l = l.
Proof.
  intros Hhd Hlast. unfold strip_with.
  assert (E1 : drop_while p l = l).
  { destruct l as [|c t]; [reflexivity|]. simpl.
    now rewrite (Hhd c t eq_refl). }
  rewrite E1.
  assert (E2 : drop_while p (rev l) = rev l).
  { destruct (rev l) as [|c t] eqn:E; [reflexivity|]. simpl.
    rewrite (Hlast c (rev t)); [reflexivity|].
    rewrite <- (rev_involutive l), E. reflexivity. }
  rewrite E2. apply rev_involutive.
Qed.

Lemma chars_string_of_list (l : list ascii) :
  chars (string_of_list_ascii l) = l.
Proof. apply list_ascii_of_string_of_list_ascii. Qed.

(** [s.strip()] is [s] without a run of white space at its start and
    one at its end; what is left neither starts nor ends with white
    space, and stripping it again changes nothing. *)
Lemma py_strip_spec (s : string) :
  (exists pre post,
     chars s = pre ++ chars (py_strip s) ++ post
     /\ Forall (fun c => is_unicode_space c = true) pre
     /\ Forall (fun c => is_unicode_space c = true) post)
  /\ (forall c t, chars (py_strip s) = c :: t -> is_unicode_space c = false)
  /\ (forall c t, chars (py_strip s) = t ++ [c] -> is_unicode_space c = false)
  /\ py_strip (py_strip s) = py_strip s.
Proof.
  unfold py_strip. rewrite !chars_string_of_list.
  destruct (strip_with_spec is_unicode_space (chars s))
    as (pre & post & E & Hpre & Hpost & Hhd & Hlast).
  split; [|split; [|split]].
  - now exists pre, post.
  - exact Hhd.
  - exact Hlast.
  - now rewrite (strip_with_fixed _ _ Hhd Hlast).
Qed.

Lemma py_strip_idem (s : string) : py_strip (py_strip s) = py_strip s.
Proof.
  unfold py_strip. rewrite chars_string_of_list.
  destruct (strip_with_spec is_unicode_space (chars s))
    as (_ & _ & _ & _ & _ & Hhd & Hlast).
  now rewrite (strip_with_fixed _ _ Hhd Hlast).
Qed.

(** X1. The text [solve] and [propose_question] take from a reply,
    [(content or "").strip()], is the content without a run of white
    space at its start and one at its end: nothing inside is changed,
    what is left neither starts nor ends with white space, and a
    content of [None] or of white space only gives the empty string. *)
Theorem stripped_content (content : option string) :
  let text := match content with
              | Some s => s
              | None => ""
              end in
  (exists pre post,
     chars text = pre ++ chars (Agent.stripped content) ++ post
     /\ Forall (fun c => is_unicode_space c = true) pre
     /\ Forall (fun c => is_unicode_space c = true) post)
  /\ (forall c t, chars (Agent.stripped content) = c :: t ->
        is_unicode_space c = false)
  /\ (forall c t, chars (Agent.stripped content) = t ++ [c] ->
        is_unicode_space c = false)
  /\ (Forall (fun c => is_unicode_space c = true) (chars text) ->
      Agent.stripped content = "")
  /\ Agent.stripped None = "".
Proof.
  intros text.
  destruct (py_strip_spec text) as (Hsplit & Hhd & Hlast & _).
  change (Agent.stripped content) with (py_strip text).
  split; [exact Hsplit|]. split; [exact Hhd|]. split; [exact Hlast|].
  split; [|reflexivity].
  intros Hall. destruct Hsplit as (pre & post & E & _ & _).
  destruct (chars (py_strip text)) as [|c t] eqn:Ec.
  - rewrite <- (string_of_list_ascii_of_string (py_strip text)).
    unfold chars in Ec. now rewrite Ec.
  - exfalso. pose proof (Hhd c t eq_refl) as Hc.
    rewrite Forall_forall in Hall.
    rewrite (Hall c) in Hc; [discriminate Hc|].
    rewrite E. apply in_or_app. right. now left.
Qed.

(** ** Dictionaries *)

Lemma pydict_get_set_same {V} (d : pydict.t V) (k : string) (v : V) :
  pydict.get (pydict.set d k v) k = Some v.
Proof.
  induction d as [|[k' v'] d IH]; simpl.
  - now rewrite String.eqb_refl.
  - destruct (String.eqb k k') eqn:E; simpl; rewrite E; [reflexivity|exact IH].
Qed.

Lemma pydict_get_set_other {V} (d : pydict.t V) (k k' : string) (v : V) :
  k' <> k -> pydict.get (pydict.set d k v) k' = pydict.get d k'.
Proof.
  intros Hne. induction d as [|[k0 v0] d IH]; simpl.
  - destruct (String.eqb k' k) eqn:E; [|reflexivity].
    apply String.eqb_eq in E. contradiction.
  - destruct (String.eqb k k0) eqn:E; simpl.
    + apply String.eqb_eq in E. subst k0.
      destruct (String.eqb k' k) eqn:E'; [|reflexivity].
      apply String.eqb_eq in E'. contradiction.
    + now rewrite IH.
Qed.

Lemma pydict_keys_set {V} (d : pydict.t V) (k : string) (v : V) :
  pydict.keys (pydict.set d k v)
  = if existsb (String.eqb k) (pydict.keys d)
    then pydict.keys d else pydict.keys d ++ [k].
Proof.
  induction d as [|[k' v'] d IH]; simpl; [reflexivity|].
  destruct (String.eqb k k') eqn:E; simpl.
  - apply String.eqb_eq in E. now subst k'.
  - unfold pydict.keys in *. rewrite IH.
    now destruct (existsb (String.eqb k) (map fst d)).
Qed.

Lemma existsb_eqb_In (k : string) (l : list string) :
  existsb (String.eqb k) l = true <-> In k l.
Proof.
  rewrite existsb_exists. split.
  - intros (x & Hx & E). apply String.eqb_eq in E. now subst.
  - intros H. exists k. split; [exact H|apply String.eqb_refl].
Qed.

Lemma pydict_keys_set_nodup {V} (d : pydict.t V) (k : string) (v : V) :
  NoDup (pydict.keys d) -> NoDup (pydict.keys (pydict.set d k v)).
Proof.
  intros H. rewrite pydict_keys_set.
  destruct (existsb (String.eqb k) (pydict.keys d)) eqn:E; [exact H|].
  apply NoDup_app; [exact H|repeat constructor; intros []|].
  intros x Hx [<-|[]].
  apply existsb_eqb_In in Hx. congruence.
Qed.

(** ** The registry *)

Section RegistryProps.

Variable R : Runtime.

Local Abbreviation F := (float R).
Local Abbreviation agent := (Agent.t F).

(** X2. After [register_tool], looking up the name of the tool gives that
    tool, whatever was registered under the name before; the other names,
    the memory and the settings are as they were; and the loop answers a
    call of that name with what the handler of the tool returns or
    raises. *)
Theorem register_tool_lookup (a : agent) (tool : ToolSpec.t F) :
  exists a',
    Agent.register_tool R tool a = Done (Ok tt, a')
    /\ pydict.get (Agent.tools a') (ToolSpec.name tool) = Some tool
    /\ (forall k, k <> ToolSpec.name tool ->
          pydict.get (Agent.tools a') k = pydict.get (Agent.tools a) k)
    /\ Agent.memory a' = Agent.memory a
    /\ Agent.settings a' = Agent.settings a
    /\ (forall call parsed,
          Function.name (ToolCall.function call) = ToolSpec.name tool ->
          Agent.parsed_arguments R (Function.arguments (ToolCall.function call))
            = Ok parsed ->
          Agent.dispatch_call R (Agent.tools a') call
          = rmap (ToolResult (ToolCall.id call) (ToolSpec.name tool))
              (ToolSpec.handler tool parsed)).
Proof.
  exists (Agent.with_tool R tool a). unfold Agent.register_tool.
  split; [reflexivity|]. simpl.
  split; [apply pydict_get_set_same|].
  split; [intros k Hk; now apply pydict_get_set_other|].
  repeat split.
  intros call parsed Hname Hargs.
  unfold Agent.dispatch_call. rewrite Hargs, Hname. simpl.
  unfold pydict.getitem. now rewrite pydict_get_set_same.
Qed.

Lemma tool_names_keys (a : agent) :
  Forall (fun kv => fst kv = ToolSpec.name (snd kv)) (Agent.tools a) ->
  tool_names R a = pydict.keys (Agent.tools a).
Proof.
  unfold tool_names, pydict.values, pydict.keys.
  induction (Agent.tools a) as [|[k v] d IH]; simpl; [reflexivity|].
  intros H. inversion H as [|? ? Hk Hd]; subst. simpl in Hk.
  now rewrite IH, Hk.
Qed.

Lemma keyed_set (d : pydict.t (ToolSpec.t F)) (tool : ToolSpec.t F) :
  Forall (fun kv => fst kv = ToolSpec.name (snd kv)) d ->
  Forall (fun kv => fst kv = ToolSpec.name (snd kv))
    (pydict.set d (ToolSpec.name tool) tool).
Proof.
  induction d as [|[k v] d IH]; simpl; intros H.
  - now repeat constructor.
  - inversion H as [|? ? Hk Hd]; subst.
    destruct (String.eqb (ToolSpec.name tool) k) eqn:E.
    + apply String.eqb_eq in E. constructor; [now simpl|exact Hd].
    + constructor; [exact Hk|now apply IH].
Qed.

Lemma registered_invariant (s : Settings.t) (more : list (ToolSpec.t F)) :
  Forall (fun kv => fst kv = ToolSpec.name (snd kv))
    (Agent.tools (registered R s more))
  /\ NoDup (pydict.keys (Agent.tools (registered R s more)))
  /\ In "evaluate_math" (pydict.keys (Agent.tools (registered R s more))).
Proof.
  unfold registered.
  assert (H0 : Forall (fun kv => fst kv = ToolSpec.name (snd kv))
                 (Agent.tools (Agent.init R s))
               /\ NoDup (pydict.keys (Agent.tools (Agent.init R s)))
               /\ In "evaluate_math" (pydict.keys (Agent.tools (Agent.init R s)))).
  { simpl. repeat split; [now repeat constructor| |now left].
    repeat constructor. intros []. }
  revert H0. generalize (Agent.init R s).
  induction more as [|tool more IH]; intros a H; simpl; [exact H|].
  apply IH. destruct H as (Hk & Hn & Hin). simpl.
  split; [now apply keyed_set|].
  split; [now apply pydict_keys_set_nodup|].
  rewrite pydict_keys_set.
  destruct (existsb _ _); [exact Hin|apply in_or_app; now left].
Qed.

(** X3. However many tools are registered after [__init__], and under
    whatever names, the tool definitions [solve] sends name each
    registered tool once: no name twice, [evaluate_math] among them, and
    a tool registered under a name already there takes the place of the
    earlier one without adding a definition. *)
Theorem tool_definitions_distinct (s : Settings.t)
  (more : list (ToolSpec.t F)) (question : string) :
  let a := registered R s more in
  Request.tools (first_pass_request R a question)
    = Some (map (Agent.tool_def R) (pydict.values (Agent.tools a)))
  /\ NoDup (tool_names R a)
  /\ In "evaluate_math" (tool_names R a)
  /\ (forall tool,
        In (ToolSpec.name tool) (tool_names R a) ->
        tool_names R (Agent.with_tool R tool a) = tool_names R a)
  /\ (forall tool,
        ~ In (ToolSpec.name tool) (tool_names R a) ->
        tool_names R (Agent.with_tool R tool a)
        = tool_names R a ++ [ToolSpec.name tool]).
Proof.
  intros a.
  destruct (registered_invariant s more) as (Hk & Hn & Hin). fold a in Hk, Hn, Hin.
  assert (Hnames : forall tool,
             tool_names R (Agent.with_tool R tool a)
             = pydict.keys (pydict.set (Agent.tools a) (ToolSpec.name tool) tool)).
  { intros tool. apply tool_names_keys. simpl. now apply keyed_set. }
  rewrite (tool_names_keys a Hk).
  split; [reflexivity|]. split; [exact Hn|]. split; [exact Hin|].
  split; intros tool Ht; rewrite Hnames, pydict_keys_set.
  - apply existsb_eqb_In in Ht. now rewrite Ht.
  - destruct (existsb _ _) eqn:E; [|reflexivity].
    apply existsb_eqb_In in E. contradiction.
Qed.

End RegistryProps.

(** ** [solve] *)

Section SolveProps.

Variable R : Runtime.

Local Abbreviation F := (float R).
Local Abbreviation agent := (Agent.t F).

Lemma stripped_fixed (c : option string) :
  py_strip (Agent.stripped c) = Agent.stripped c.
Proof.
  apply py_strip_idem.
Qed.

(** X4. When the first reply asks for no tool ([tool_calls] is [None] or
    empty), [solve] makes that one request and no other, returns the
    stripped content of the reply (the empty string when the content is
    [None]) and adds it to the memory as one [assistant] turn; the
    question is not stored. *)
Theorem solve_direct_answer (a : agent) (question : string)
  (first : Response.t F) (msg : Message.t F)
  (rest : list (result (Response.t F))) :
  Agent.first_message R first = Ok msg ->
  Message.tool_calls msg = None \/ Message.tool_calls msg = Some [] ->
  let final := match Message.content msg with
               | Some text => py_strip text
               | None => ""
               end in
  run (Agent.solve R question a) (Ok first :: rest)
  = Some ((Ok final, with_turn a "assistant" final),
          [first_pass_request R a question])
  /\ Memory.turns (Agent.memory (with_turn a "assistant" final))
     = Memory.turns (Agent.memory a)
       ++ [{| Memory.role := "assistant"; Memory.content := final |}].
Proof.
  intros Hm Hc final.
  assert (Hfinal : Agent.stripped (Message.content msg) = final).
  { unfold Agent.stripped, final. now destruct (Message.content msg). }
  split; [|reflexivity].
  destruct a as [s mem registry].
  unfold first_pass_request, first_pass_messages, with_turn.
  unfold Agent.solve, Agent.bind. cbn. rewrite Hm. cbn.
  destruct Hc as [Hc|Hc]; rewrite Hc; cbn; now rewrite Hfinal.
Qed.

(** X5. A reply with no choice in it makes [solve] raise [IndexError],
    on the first pass and on the second alike, and the agent is as
    before the call: nothing is added to the memory. *)
Theorem solve_empty_choices (a : agent) (question : string)
  (empty : Response.t F) (rest : list (result (Response.t F))) :
  Response.choices empty = [] ->
  run (Agent.solve R question a) (Ok empty :: rest)
  = Some ((Raise IndexError, a), [first_pass_request R a question])
  /\ forall first msg call calls messages',
       Agent.first_message R first = Ok msg ->
       Message.tool_calls msg = Some (call :: calls) ->
       Agent.dispatch R (Agent.tools a) (call :: calls)
         (first_pass_messages R a question) = Ok messages' ->
       run (Agent.solve R question a) (Ok first :: Ok empty :: rest)
       = Some ((Raise IndexError, a),
               [first_pass_request R a question;
                Agent.second_request R (Agent.settings a) messages'
                  (call :: calls)]).
Proof.
  intros He.
  assert (Hfm : Agent.first_message R empty = Raise IndexError).
  { unfold Agent.first_message. now rewrite He. }
  split.
  - destruct a as [s mem registry].
    unfold first_pass_request, first_pass_messages.
    unfold Agent.solve, Agent.bind. cbn. now rewrite Hfm.
  - intros first msg call calls messages' Hm Hc Hd.
    destruct a as [s mem registry].
    unfold first_pass_request, first_pass_messages in *.
    unfold Agent.solve, Agent.bind. cbn. rewrite Hm. cbn. rewrite Hc. cbn.
    unfold Agent.first_messages in Hd. cbn in Hd. rewrite Hd. cbn.
    now rewrite Hfm.
Qed.

(** X6. An exception raised while a tool call is handled leaves the
    loop and [solve] at once, whatever calls come after it: one request
    has been made, none follows, and the agent is unchanged. The
    exception is that of decoding the arguments, the [KeyError] of a
    name that is not registered, or what the handler raised. *)
Theorem tool_exception_leaves_solve (a : agent) (question : string)
  (first : Response.t F) (msg : Message.t F)
  (pre post : list (ToolCall.t F)) (call : ToolCall.t F)
  (messages1 : list (message_param F)) (e : exn)
  (rest : list (result (Response.t F))) :
  let name := Function.name (ToolCall.function call) in
  let args := Function.arguments (ToolCall.function call) in
  Agent.first_message R first = Ok msg ->
  Message.tool_calls msg = Some (pre ++ call :: post) ->
  Agent.dispatch R (Agent.tools a) pre (first_pass_messages R a question)
    = Ok messages1 ->
  Agent.dispatch_call R (Agent.tools a) call = Raise e ->
  run (Agent.solve R question a) (Ok first :: rest)
  = Some ((Raise e, a), [first_pass_request R a question])
  /\ (Agent.parsed_arguments R args = Raise e
      \/ (exists parsed,
            Agent.parsed_arguments R args = Ok parsed
            /\ pydict.get (Agent.tools a) name = None
            /\ e = KeyError name)
      \/ (exists parsed spec,
            Agent.parsed_arguments R args = Ok parsed
            /\ pydict.get (Agent.tools a) name = Some spec
            /\ ToolSpec.handler spec parsed = Raise e)).
Proof.
  intros name args Hm Hc Hpre Hcall. split.
  - assert (Hd : Agent.dispatch R (Agent.tools a) (pre ++ call :: post)
                   (first_pass_messages R a question) = Raise e).
    { rewrite dispatch_app, Hpre. simpl. now rewrite Hcall. }
    destruct (pre ++ call :: post) as [|c0 cs] eqn:E.
    + destruct pre; discriminate E.
    + now apply (solve_dispatch_raises R a question first msg c0 cs e rest Hm Hc).
  - unfold Agent.dispatch_call in Hcall. fold name args in Hcall.
    destruct (Agent.parsed_arguments R args) as [parsed|e1]; simpl in Hcall.
    + right. unfold pydict.getitem in Hcall.
      destruct (pydict.get (Agent.tools a) name) as [spec|]; simpl in Hcall.
      * right. exists parsed, spec. repeat split.
        destruct (ToolSpec.handler spec parsed); simpl in Hcall;
          [discriminate Hcall|now injection Hcall as ->].
      * left. exists parsed. repeat split. now injection Hcall as <-.
    + left. now injection Hcall as ->.
Qed.

(** What a run of [solve] that ends has done. *)
Lemma solve_run (a : agent) (question : string)
  (replies : list (result (Response.t F)))
  (out : result string * agent) (requests : list (Request.t F)) :
  run (Agent.solve R question a) replies = Some (out, requests) ->
  (requests = [first_pass_request R a question]
   \/ exists second,
        requests = [first_pass_request R a question; second]
        /\ Request.model second = Settings.model_default (Agent.settings a)
        /\ Request.tools second = None
        /\ Request.tool_choice second = None)
  /\ match fst out with
     | Ok final =>
         snd out = with_turn a "assistant" final /\ py_strip final = final
     | Raise _ => snd out = a
     end.
Proof.
  destruct a as [s mem registry].
  unfold first_pass_request, first_pass_messages, with_turn.
  unfold Agent.solve, Agent.bind. cbn. intros H.
  destruct replies as [|[first|e] rest]; cbn in H; try discriminate H;
    [|injection H as <- <-; split; [now left|reflexivity]].
  destruct (Agent.first_message R first) as [msg|e]; cbn in H;
    [|injection H as <- <-; split; [now left|reflexivity]].
  destruct (Message.tool_calls msg) as [[|call calls]|]; cbn in H;
    try (injection H as <- <-; split; [now left|];
         split; [reflexivity|apply stripped_fixed]).
  destruct (rbind (Agent.dispatch_call R registry call) _) as [messages'|e];
    cbn in H; [|injection H as <- <-; split; [now left|reflexivity]].
  destruct rest as [|[second|e] rest]; cbn in H; try discriminate H.
  - destruct (Agent.first_message R second) as [msg2|e]; cbn in H;
      injection H as <- <-;
      (split; [right; eexists; now repeat split|]);
      [split; [reflexivity|apply stripped_fixed]|reflexivity].
  - injection H as <- <-. split; [right; eexists; now repeat split|reflexivity].
Qed.

(** X7. [solve] asks the completion API once or twice and never a
    third time: with two replies at hand it always ends. The first
    request is the one made from the memory and the question; a second
    one goes to the same model without tools. If [solve] raises, the
    agent is as before the call; if it returns, the answer has no white
    space at either end and is the one turn added to the memory. Without
    a reply it cannot end. *)
Theorem solve_outcome (a : agent) (question : string)
  (reply1 reply2 : result (Response.t F))
  (rest : list (result (Response.t F))) :
  (exists out requests,
     run (Agent.solve R question a) (reply1 :: reply2 :: rest)
       = Some (out, requests)
     /\ (requests = [first_pass_request R a question]
         \/ exists second,
              requests = [first_pass_request R a question; second]
              /\ Request.model second = Settings.model_default (Agent.settings a)
              /\ Request.tools second = None
              /\ Request.tool_choice second = None)
     /\ match fst out with
        | Ok final =>
            snd out = with_turn a "assistant" final /\ py_strip final = final
        | Raise _ => snd out = a
        end)
  /\ run (Agent.solve R question a) [] = None.
Proof.
  split; [|now destruct a].
  assert (H : exists r, run (Agent.solve R question a) (reply1 :: reply2 :: rest)
                        = Some r).
  { destruct a as [s mem registry].
    unfold Agent.solve, Agent.bind. cbn.
    destruct reply1 as [first|e]; cbn; [|now eexists].
    destruct (Agent.first_message R first) as [msg|e]; cbn; [|now eexists].
    destruct (Message.tool_calls msg) as [[|call calls]|]; cbn;
      try now eexists.
    destruct (rbind (Agent.dispatch_call R registry call) _) as [messages'|e];
      cbn; [|now eexists].
    destruct reply2 as [second|e]; cbn; [|now eexists].
    destruct (Agent.first_message R second); cbn; now eexists. }
  destruct H as ([out requests] & H).
  exists out, requests. split; [exact H|].
  exact (solve_run a question _ out requests H).
Qed.

(** X8. After a loop that ended normally the answer is the stripped
    content of the second reply: the content of the first reply is not
    used, and tool calls in the second reply are not followed. *)
Theorem solve_tool_answer (a : agent) (question : string)
  (first second : Response.t F) (msg msg2 : Message.t F)
  (call : ToolCall.t F) (calls : list (ToolCall.t F))
  (messages' : list (message_param F))
  (rest : list (result (Response.t F))) :
  Agent.first_message R first = Ok msg ->
  Message.tool_calls msg = Some (call :: calls) ->
  Agent.dispatch R (Agent.tools a) (call :: calls)
    (first_pass_messages R a question) = Ok messages' ->
  Agent.first_message R second = Ok msg2 ->
  let final := Agent.stripped (Message.content msg2) in
  run (Agent.solve R question a) (Ok first :: Ok second :: rest)
  = Some ((Ok final, with_turn a "assistant" final),
          [first_pass_request R a question;
           Agent.second_request R (Agent.settings a) messages' (call :: calls)]).
Proof.
  intros Hm Hc Hd Hm2 final. subst final.
  destruct a as [s mem registry].
  unfold first_pass_request, first_pass_messages, with_turn in *.
  unfold Agent.solve, Agent.bind. cbn. rewrite Hm. cbn. rewrite Hc. cbn.
  unfold Agent.first_messages in Hd. cbn in Hd. rewrite Hd. cbn.
  now rewrite Hm2.
Qed.

(** X9. A second call of [solve] on the agent the first one leaves
    sends, between the system prompt and the new question, the turns
    the memory had and then the first answer as an [assistant] turn;
    the first question is not among what the first call stored. *)
Theorem solve_follow_up (a a1 : agent) (question1 question2 answer1 : string)
  (replies : list (result (Response.t F))) (requests : list (Request.t F)) :
  run (Agent.solve R question1 a) replies = Some ((Ok answer1, a1), requests) ->
  first_pass_messages R a1 question2
  = [Turn "system" Agent.sys]
    ++ fst (Memory.as_messages (Agent.memory a))
    ++ [Turn "assistant" answer1; Turn "user" question2]
  /\ Request.tools (first_pass_request R a1 question2)
     = Request.tools (first_pass_request R a question1).
Proof.
  intros H. destruct (solve_run a question1 replies _ requests H) as (_ & Ha & _).
  simpl in Ha. subst a1.
  unfold first_pass_request, first_pass_messages, Agent.first_messages,
    with_turn. simpl.
  split; [|reflexivity].
  now rewrite map_app, <- List.app_assoc.
Qed.

End SolveProps.

(** ** The built-in tool inside the loop *)

Section BuiltinTool.

Variable R : Runtime.

Local Abbreviation F := (float R).
Local Abbreviation agent := (Agent.t F).




(** X11. An agent as [__init__] leaves it knows one tool. A call that
    names [evaluate_math] gets, under its id and that name, the string
    [evaluate_math] returns for the decoded arguments, error strings
    included, and raises what decoding or [evaluate_math] raises; a call
    of any other name whose arguments decode raises [KeyError]. *)
Theorem fresh_agent_dispatch (s : Settings.t) (call : ToolCall.t F) :
  let name := Function.name (ToolCall.function call) in
  let args := Function.arguments (ToolCall.function call) in
  (name = "evaluate_math" ->
   Agent.dispatch_call R (Agent.tools (Agent.init R s)) call
   = rbind (Agent.parsed_arguments R args)
       (fun parsed =>
          rmap (ToolResult (ToolCall.id call) "evaluate_math")
            (evaluate_math R parsed)))
  /\ (name <> "evaluate_math" ->
      forall parsed,
        Agent.parsed_arguments R args = Ok parsed ->
        Agent.dispatch_call R (Agent.tools (Agent.init R s)) call
        = Raise (KeyError name)).
Proof.
  intros name args. split.
  - intros Hname. unfold Agent.dispatch_call. fold name args.
    rewrite Hname. destruct (Agent.parsed_arguments R args); reflexivity.
  - intros Hname parsed Hargs. unfold Agent.dispatch_call. fold name args.
    rewrite Hargs. simpl. unfold pydict.getitem. simpl.
    destruct (String.eqb name "evaluate_math") eqn:E; [|reflexivity].
    apply String.eqb_eq in E. contradiction.
Qed.

End BuiltinTool.

(** ** [propose_question] *)

Section ProposeProps.

Variable R : Runtime.

Local Abbreviation F := (float R).
Local Abbreviation agent := (Agent.t F).

Lemma propose_question_run (a : agent)
  (replies : list (result (Response.t F)))
  (out : result string * agent) (requests : list (Request.t F)) :
  run (Agent.propose_question R a) replies = Some (out, requests) ->
  requests = [Agent.propose_request R (Agent.settings a)]
  /\ exists reply rest,
       replies = reply :: rest
       /\ match reply with
          | Raise e => out = (Raise e, a)
          | Ok resp =>
              match Response.choices resp with
              | [] => out = (Raise IndexError, a)
              | msg :: _ =>
                  let q := Agent.stripped (Message.content msg) in
                  out = (Ok q, with_turn a "user" ("Question to solve: " ++ q))
              end
          end.
Proof.
  destruct a as [s mem registry]. unfold with_turn.
  unfold Agent.propose_question, Agent.bind. cbn. intros H.
  destruct replies as [|[resp|e] rest]; cbn in H; try discriminate H.
  - unfold Agent.first_message in H.
    destruct (Response.choices resp) as [|msg msgs] eqn:E; cbn in H;
      injection H as <- <-; (split; [reflexivity|]);
      exists (Ok resp), rest; (split; [reflexivity|]); now rewrite E.
  - injection H as <- <-. split; [reflexivity|]. now exists (Raise e), rest.
Qed.

(** X12. [propose_question] makes one request, to the fast model, with
    the fixed prompt as its only message, so nothing of the memory is
    sent. If the call raises, or the reply has no choice, the exception
    leaves [propose_question] and the agent is unchanged. Otherwise it
    returns the stripped content of the first choice (the empty string
    for [None]) and adds one [user] turn, the question after the text
    ["Question to solve: "]. *)
Theorem propose_question_outcome (a : agent)
  (reply : result (Response.t F)) (rest : list (result (Response.t F))) :
  exists out,
    run (Agent.propose_question R a) (reply :: rest)
    = Some (out, [Agent.propose_request R (Agent.settings a)])
    /\ Request.model (Agent.propose_request R (Agent.settings a))
       = Settings.model_fast (Agent.settings a)
    /\ Request.messages (Agent.propose_request R (Agent.settings a))
       = [Turn "user" Agent.user_prompt]
    /\ match reply with
       | Raise e => out = (Raise e, a)
       | Ok resp =>
           match Response.choices resp with
           | [] => out = (Raise IndexError, a)
           | msg :: _ =>
               let q := match Message.content msg with
                        | Some text => py_strip text
                        | None => ""
                        end in
               out = (Ok q, with_turn a "user" ("Question to solve: " ++ q))
               /\ Memory.turns (Agent.memory (snd out))
                  = Memory.turns (Agent.memory a)
                    ++ [{| Memory.role := "user";
                           Memory.content := "Question to solve: " ++ q |}]
           end
       end.
Proof.
  assert (H : exists r, run (Agent.propose_question R a) (reply :: rest) = Some r).
  { destruct a as [s mem registry].
    unfold Agent.propose_question, Agent.bind. cbn.
    destruct reply as [resp|e]; cbn; [|now eexists].
    destruct (Agent.first_message R resp); cbn; now eexists. }
  destruct H as ([out requests] & H).
  destruct (propose_question_run a _ out requests H)
    as (-> & reply' & rest' & [= <- <-] & Hout).
  exists out. split; [exact H|]. split; [reflexivity|]. split; [reflexivity|].
  destruct reply as [resp|e]; [|exact Hout].
  destruct (Response.choices resp) as [|msg msgs]; [exact Hout|].
  cbn zeta in *.
  assert (Hq : Agent.stripped (Message.content msg)
               = match Message.content msg with
                 | Some text => py_strip text
                 | None => ""
                 end).
  { unfold Agent.stripped. now destruct (Message.content msg). }
  rewrite <- Hq. split; [exact Hout|]. now rewrite Hout.
Qed.

(** X13. [solve] called with the question [propose_question] returned,
    on the agent it leaves, sends the question twice: as the stored
    turn ["Question to solve: ..."] after the turns the memory had
    before, and again as the last message. *)
Theorem propose_then_solve (a a1 : agent) (question : string)
  (replies : list (result (Response.t F))) (requests : list (Request.t F)) :
  run (Agent.propose_question R a) replies = Some ((Ok question, a1), requests) ->
  first_pass_messages R a1 question
  = [Turn "system" Agent.sys]
    ++ fst (Memory.as_messages (Agent.memory a))
    ++ [Turn "user" ("Question to solve: " ++ question); Turn "user" question]
  /\ Request.model (first_pass_request R a1 question)
     = Settings.model_default (Agent.settings a)
  /\ Agent.tools a1 = Agent.tools a.
Proof.
  intros H.
  destruct (propose_question_run a replies _ requests H)
    as (_ & reply & rest & _ & Hout).
  destruct reply as [resp|e]; [|discriminate Hout].
  destruct (Response.choices resp) as [|msg msgs]; [discriminate Hout|].
  cbn zeta in Hout. injection Hout as Hq ->. rewrite <- Hq.
  unfold first_pass_request, first_pass_messages, Agent.first_messages,
    with_turn. simpl.
  repeat split.
  now rewrite map_app, <- List.app_assoc.
Qed.

End ProposeProps.

(** ** [load_settings] and [main] *)

Section Startup.

Variable load_dotenv : environ -> result bool * environ.

(** X14. Once [load_dotenv] has returned, [load_settings] raises
    [RuntimeError] exactly when [OPENAI_API_KEY] is unset or set to the
    empty string in the environment [load_dotenv] leaves; otherwise the
    key of the settings is the value of the variable, and it is not
    empty. An exception of [load_dotenv] leaves [load_settings] as it
    is. The environment is read, not changed. *)
Theorem load_settings_api_key (env : environ) :
  (forall b env',
     load_dotenv env = (Ok b, env') ->
     (fst (load_settings load_dotenv env) = Raise runtime_error
      <-> pydict.get env' "OPENAI_API_KEY" = None
          \/ pydict.get env' "OPENAI_API_KEY" = Some "")
     /\ (forall s,
           fst (load_settings load_dotenv env) = Ok s ->
           pydict.get env' "OPENAI_API_KEY" = Some (Settings.api_key s)
           /\ Settings.api_key s <> ""))
  /\ (forall e env',
        load_dotenv env = (Raise e, env') ->
        fst (load_settings load_dotenv env) = Raise e)
  /\ snd (load_settings load_dotenv env) = snd (load_dotenv env).
Proof.
  unfold load_settings, getenv.
  split; [|split].
  - intros b env' ->.
    destruct (pydict.get env' "OPENAI_API_KEY") as [key|] eqn:E; simpl.
    + destruct (String.eqb key "") eqn:Ek; simpl.
      * apply String.eqb_eq in Ek. subst key.
        split; [split; [now right|reflexivity]|discriminate].
      * apply String.eqb_neq in Ek.
        split.
        -- split; [discriminate|]. intros [H|[= H]]; [discriminate H|].
           now elim Ek.
        -- intros s [= <-]. now split.
    + split; [split; [now left|reflexivity]|discriminate].
  - now intros e env' ->.
  - destruct (load_dotenv env) as [[b|e] env']; [|reflexivity].
    now destruct (String.eqb _ _).
Qed.

(** X15. Each model name of the settings is the value of its variable
    when the variable is set, the empty string included, and the
    default only when it is unset: an empty model name is taken as it
    is, unlike an empty key. *)
Theorem load_settings_models (env : environ) (s : Settings.t) :
  fst (load_settings load_dotenv env) = Ok s ->
  let env' := snd (load_dotenv env) in
  let chosen variable default :=
    match pydict.get env' variable with
    | Some v => v
    | None => default
    end in
  Settings.model_default s = chosen "OPENAI_DEFAULT_MODEL" "gpt-4.1"
  /\ Settings.model_fast s = chosen "OPENAI_FAST_MODEL" "gpt-4.1-mini"
  /\ Settings.model_tiny s = chosen "OPENAI_TINY_MODEL" "gpt-4.1-nano"
  /\ (forall variable default,
        pydict.get env' variable = Some "" -> chosen variable default = "").
Proof.
  unfold load_settings, getenv.
  destruct (load_dotenv env) as [[b|e] env']; [|discriminate]. simpl.
  destruct (String.eqb _ _); [discriminate|]. simpl.
  intros [= <-]. simpl. repeat split.
  intros variable default H. now rewrite H.
Qed.

Variable R : Runtime.
Variable rprint : string -> result unit.

Local Abbreviation F := (float R).

(** X16. When [load_settings] raises, [main] raises the same exception
    before anything else happens: no request is made, whatever replies
    the API would give, and nothing is printed. *)
Theorem main_without_settings (env : environ) (e : exn)
  (replies : list (result (Response.t F))) :
  fst (load_settings load_dotenv env) = Raise e ->
  run (main R load_dotenv rprint env) replies = Some ((Raise e, []), []).
Proof.
  intros H. unfold main. now rewrite H.
Qed.

Lemma run_bind_create {X Y : Type} (p : prog F X) (f : X -> prog F Y)
  (reply : result (Response.t F)) (replies : list (result (Response.t F)))
  (x : X) (requests : list (Request.t F)) :
  run p [reply] = Some (x, requests) ->
  length requests = 1%nat ->
  run (prog_bind p f) (reply :: replies)
  = match run (f x) replies with
    | Some (y, requests') => Some (y, requests ++ requests')
    | None => None
    end.
Proof.
  destruct p as [x0|req k]; simpl.
  - intros [= <- <-]. discriminate.
  - destruct (k reply) as [x1|req1 k1]; simpl; [|discriminate].
    intros [= <- <-] _. simpl. now destruct (run (f x1) replies) as [[y r]|].
Qed.

Lemma run_bind_done {X Y : Type} (p : prog F X) (f : X -> prog F Y)
  (replies : list (result (Response.t F)))
  (x : X) (requests : list (Request.t F)) (y : Y) :
  run p replies = Some (x, requests) ->
  f x = Done y ->
  run (prog_bind p f) replies = Some (y, requests).
Proof.
  intros H Hf. revert replies requests H.
  induction p as [x0|req k IH]; simpl; intros replies requests H.
  - injection H as -> <-. now rewrite Hf.
  - destruct replies as [|reply replies]; [discriminate H|].
    destruct (run (k reply) replies) as [[x1 r1]|] eqn:E; [|discriminate H].
    injection H as -> <-. now rewrite (IH reply replies r1 E).
Qed.

(** X17. A run of [main] in which nothing raises: with the settings
    loaded, [propose_question] returning [q] on the agent [__init__]
    leaves, [solve q] returning [ans] on the agent that leaves, and
    every [rprint] returning, [main] returns after making the request
    of [propose_question] and then those of [solve], and has printed
    five texts: the two phase headings, the question, the answer and
    the closing line, in the order of the source. *)
Theorem main_success (env : environ) (settings : Settings.t)
  (reply1 : result (Response.t F)) (replies : list (result (Response.t F)))
  (q ans : string) (a1 a2 : Agent.t F) (requests1 requests2 : list (Request.t F)) :
  (forall text, rprint text = Ok tt) ->
  fst (load_settings load_dotenv env) = Ok settings ->
  run (Agent.propose_question R (Agent.init R settings)) [reply1]
    = Some ((Ok q, a1), requests1) ->
  run (Agent.solve R q a1) replies = Some ((Ok ans, a2), requests2) ->
  run (main R load_dotenv rprint env) (reply1 :: replies)
  = Some ((Ok tt,
           ["[bold cyan]Phase 1: Propose a challenging question[/bold cyan]";
            "[yellow]Question:[/yellow] " ++ q;
            newline ++ "[bold cyan]Phase 2: Solve with tools if needed[/bold cyan]";
            "[green]Answer:[/green] " ++ ans;
            newline ++ "[dim]Done.[/dim]"]%string),
          Agent.propose_request R settings :: requests2).
Proof.
  intros Hprint Hs Hq Ha. unfold main. rewrite Hs.
  unfold say at 1. rewrite Hprint.
  destruct (propose_question_run R _ _ _ _ Hq) as (Hreq & _).
  rewrite (run_bind_create _ _ reply1 replies _ _ Hq)
    by now rewrite Hreq.
  simpl fst. simpl snd. unfold say at 1 2. rewrite !Hprint.
  rewrite Hreq. simpl app.
  erewrite (run_bind_done _ _ replies _ _ _ Ha); [reflexivity|].
  simpl fst. unfold say. now rewrite !Hprint.
Qed.

(** X18. [main] stops at the first thing that raises. A failing
    [propose_question] leaves it after one request with the first
    heading printed; a failing [solve] after the question and the second
    heading are printed; a failing [rprint] of the question line, which
    depends on what the model wrote, before [solve] is called, so with
    one request made. No answer line is printed in any of these
    runs. *)
Theorem main_stops_at_failure (env : environ) (settings : Settings.t)
  (reply1 : result (Response.t F)) (replies : list (result (Response.t F)))
  (a1 : Agent.t F) (requests1 : list (Request.t F)) :
  let phase1 := "[bold cyan]Phase 1: Propose a challenging question[/bold cyan]" in
  let phase2 :=
    (newline ++ "[bold cyan]Phase 2: Solve with tools if needed[/bold cyan]")%string in
  fst (load_settings load_dotenv env) = Ok settings ->
  rprint phase1 = Ok tt ->
  (forall e,
     run (Agent.propose_question R (Agent.init R settings)) [reply1]
       = Some ((Raise e, a1), requests1) ->
     run (main R load_dotenv rprint env) (reply1 :: replies)
     = Some ((Raise e, [phase1]), [Agent.propose_request R settings]))
  /\ (forall q e,
        run (Agent.propose_question R (Agent.init R settings)) [reply1]
          = Some ((Ok q, a1), requests1) ->
        rprint ("[yellow]Question:[/yellow] " ++ q) = Raise e ->
        run (main R load_dotenv rprint env) (reply1 :: replies)
        = Some ((Raise e, [phase1]), [Agent.propose_request R settings]))
  /\ (forall q e a2 requests2,
        run (Agent.propose_question R (Agent.init R settings)) [reply1]
          = Some ((Ok q, a1), requests1) ->
        rprint ("[yellow]Question:[/yellow] " ++ q) = Ok tt ->
        rprint phase2 = Ok tt ->
        run (Agent.solve R q a1) replies = Some ((Raise e, a2), requests2) ->
        run (main R load_dotenv rprint env) (reply1 :: replies)
        = Some ((Raise e,
                 [phase1; ("[yellow]Question:[/yellow] " ++ q)%string; phase2]),
                Agent.propose_request R settings :: requests2)).
Proof.
  intros phase1 phase2 Hs Hp1.
  assert (Hmain : forall out,
            run (Agent.propose_question R (Agent.init R settings)) [reply1]
              = Some (out, requests1) ->
            run (main R load_dotenv rprint env) (reply1 :: replies)
            = match
                run (match fst out with
                     | Raise e => Done (Raise e, [phase1])
                     | Ok q =>
                         say rprint ("[yellow]Question:[/yellow] " ++ q) [phase1]
                           (fun printed =>
                            say rprint phase2 printed
                              (fun printed =>
                               prog_bind (Agent.solve R q (snd out))
                                 (fun r2 =>
                                  match fst r2 with
                                  | Raise e => Done (Raise e, printed)
                                  | Ok ans =>
                                      say rprint ("[green]Answer:[/green] " ++ ans)
                                        printed
                                        (fun printed =>
                                         say rprint (newline ++ "[dim]Done.[/dim]")
                                           printed
                                           (fun printed => Done (Ok tt, printed)))
                                  end)))
                     end) replies
              with
              | Some (y, requests') =>
                  Some (y, Agent.propose_request R settings :: requests')
              | None => None
              end).
  { intros out Hq. unfold main. rewrite Hs.
    unfold say at 1. fold phase1. rewrite Hp1.
    destruct (propose_question_run R _ _ _ _ Hq) as (Hreq & _).
    rewrite (run_bind_create _ _ reply1 replies _ _ Hq) by now rewrite Hreq.
    rewrite Hreq. reflexivity. }
  split; [|split].
  - intros e Hq. now rewrite (Hmain _ Hq).
  - intros q e Hq Hp. rewrite (Hmain _ Hq). simpl fst.
    unfold say at 1. now rewrite Hp.
  - intros q e a2 requests2 Hq Hp Hp2 Ha. rewrite (Hmain _ Hq). simpl fst.
    unfold say at 1 2. rewrite Hp, Hp2. simpl snd. simpl app.
    now rewrite (run_bind_done _ _ replies _ _ (Raise e, [phase1; ("[yellow]Question:[/yellow] " ++ q)%string; phase2]) Ha)
      by reflexivity.
Qed.

End Startup.

(** ** Integer literals and expressions in mode [eval] *)

Lemma chars_app (s t : string) : chars (s ++ t) = chars s ++ chars t.
Proof.
  unfold chars. induction s as [|c s IH]; simpl; [reflexivity|].
  now rewrite IH.
Qed.

Lemma digits_value_acc (d : Decimal.uint) (p : positive) :
  fold_left (fun acc c => 10 * acc + (Z.of_N (code c) - 48))
    (chars (NilEmpty.string_of_uint d)) (Z.pos p)
  = Z.pos (Pos.of_uint_acc d p).
Proof.
  revert p. induction d; intros p; cbn [NilEmpty.string_of_uint chars list_ascii_of_string fold_left Pos.of_uint_acc];
    [reflexivity|..];
    match goal with
    | |- fold_left _ _ ?z = Z.pos (Pos.of_uint_acc _ ?q) =>
        replace z with (Z.pos q) by (cbn [code N_of_ascii]; vm_compute Z.of_N; lia)
    end; apply IHd.
Qed.

Lemma digits_value_uint (d : Decimal.uint) :
  digits_value (chars (NilEmpty.string_of_uint d)) = Z.of_N (Pos.of_uint d).
Proof.
  unfold digits_value.
  induction d;
    cbn [NilEmpty.string_of_uint chars list_ascii_of_string fold_left Pos.of_uint];
    [reflexivity|exact IHd|..];
    match goal with
    | |- fold_left _ _ ?z = Z.of_N (N.pos (Pos.of_uint_acc _ ?q)) =>
        change z with (Z.pos q)
    end; apply digits_value_acc.
Qed.

Lemma to_uint_head (p : positive) (d : Decimal.uint) :
  Pos.to_uint p <> Decimal.D0 d.
Proof.
  intros H.
  pose proof (DecimalN.Unsigned.to_of (Pos.to_uint p)) as E.
  change (N.of_uint (Pos.to_uint p)) with (Pos.of_uint (Pos.to_uint p)) in E.
  rewrite DecimalPos.Unsigned.of_to in E.
  change (N.to_uint (N.pos p)) with (Pos.to_uint p) in E.
  unfold Decimal.unorm in E.
  destruct (Decimal.nzhead (Pos.to_uint p)) eqn:Hn;
    try (rewrite E in H; discriminate H).
  - rewrite E in H. injection H as <-.
    pose proof (DecimalPos.Unsigned.of_to p) as E2. rewrite E in E2.
    discriminate E2.
  - now apply (DecimalFacts.nzhead_nonzero (Pos.to_uint p) u).
Qed.

Lemma str_int_pos (p : positive) :
  str_int (Z.pos p) = NilEmpty.string_of_uint (Pos.to_uint p).
Proof.
  unfold str_int. simpl Z.to_int.
  pose proof (DecimalPos.Unsigned.to_uint_nonnil p) as Hp.
  simpl. destruct (Pos.to_uint p); [now elim Hp|reflexivity..].
Qed.

Lemma str_int_digits (n : Z) :
  0 <= n ->
  Forall (fun c => is_digit c = true) (chars (str_int n))
  /\ exists c l, chars (str_int n) = c :: l.
Proof.
  destruct n as [|p|p]; intros Hn; [| |lia].
  - split; [now repeat constructor|now eexists _, _].
  - rewrite str_int_pos. split; [apply uint_chars_digits|].
    pose proof (uint_chars_nonempty (Pos.to_uint p)
                  (DecimalPos.Unsigned.to_uint_nonnil p)) as Hne.
    destruct (chars _) as [|c l]; [now elim Hne|now eexists _, _].
Qed.

(** The text of a non-negative integer is read by the tokenizer as that
    integer. *)
Lemma int_token_str_int (limit n : Z) :
  literal limit n = true ->
  int_token limit (chars (str_int n)) = TInt n.
Proof.
  unfold literal. intros H. apply andb_prop in H. destruct H as [Hn Hlim].
  apply Z.leb_le in Hn. apply negb_true_iff in Hlim.
  destruct n as [|p|p]; [reflexivity| |lia].
  rewrite str_int_pos in *.
  pose proof (digits_value_uint (Pos.to_uint p)) as Hv.
  rewrite DecimalPos.Unsigned.of_to in Hv.
  pose proof (to_uint_head p) as Hhd.
  pose proof (DecimalPos.Unsigned.to_uint_nonnil p) as Hnil.
  unfold int_token.
  destruct (Pos.to_uint p) as [|d|d|d|d|d|d|d|d|d|d] eqn:E;
    [now elim Hnil|now elim (Hhd d)|..];
    cbn [NilEmpty.string_of_uint chars list_ascii_of_string] in *;
    (replace (is_zero_char _) with false by reflexivity);
    rewrite Hlim, Hv; reflexivity.
Qed.

Lemma lex_digits (limit : Z) (ds rd tail : list ascii) :
  Forall (fun c => is_digit c = true) ds ->
  number_ends tail ->
  lex limit (LInt rd) (ds ++ tail)
  = int_token limit (rev rd ++ ds) :: lex limit LIdle tail.
Proof.
  intros Hds Htail. revert rd.
  induction Hds as [|d ds Hd _ IH]; intros rd.
  - rewrite List.app_nil_r. destruct tail as [|c l]; [reflexivity|].
    destruct Htail as [H1 H2]. simpl. rewrite H1, H2.
    unfold lex_after. simpl. now destruct (lex_start c).
  - simpl. rewrite Hd. simpl. rewrite IH. simpl.
    now rewrite <- List.app_assoc.
Qed.

Lemma lex_number (limit n : Z) (tail : list ascii) :
  literal limit n = true ->
  number_ends tail ->
  lex limit LIdle (chars (str_int n) ++ tail)
  = TInt n :: lex limit LIdle tail.
Proof.
  intros Hlit Htail.
  assert (Hn : 0 <= n).
  { unfold literal in Hlit. apply andb_prop in Hlit. now apply Z.leb_le. }
  destruct (str_int_digits n Hn) as (Hdig & c & l & E).
  rewrite <- (int_token_str_int limit n Hlit). rewrite E in *.
  inversion Hdig as [|? ? Hc Hl]; subst.
  simpl. unfold lex_start. rewrite Hc. simpl.
  now rewrite (lex_digits limit l [c] tail Hl Htail).
Qed.










Lemma digit_allowed (c : ascii) :
  is_digit c = true -> existsb (Ascii.eqb c) allowed = true.
Proof.
  destruct c as [[] [] [] [] [] [] [] []]; intros H;
    first [discriminate H|reflexivity].
Qed.

Lemma render_allowed (limit : Z) (e : expr) :
  plain limit e = true ->
  forallb (fun c => existsb (Ascii.eqb c) allowed) (chars (render e)) = true.
Proof.
  induction e as [n| | | |op e1 IH|op l IHl r IHr|]; intros Hp;
    try discriminate Hp.
  - unfold plain, literal in Hp. apply andb_prop in Hp. destruct Hp as [Hn _].
    apply Z.leb_le in Hn. destruct (str_int_digits n Hn) as (Hdig & _).
    apply forallb_forall. intros c Hc. rewrite Forall_forall in Hdig.
    simpl in Hc. now apply digit_allowed, Hdig.
  - simpl in Hp. cbn [render]. rewrite !chars_app, !forallb_app, (IH Hp).
    now destruct op.
  - simpl in Hp. apply andb_prop in Hp. destruct Hp as [Hl Hr].
    cbn [render]. rewrite !chars_app, !forallb_app, (IHl Hl), (IHr Hr).
    now destruct op.
Qed.

Section Arithmetic.

Variable R : Runtime.

Lemma evaluate_math_eval (expression : string) :
  forallb (fun c => existsb (Ascii.eqb c) allowed) (chars expression) = true ->
  evaluate_math R (math_request (PStr expression) (PStr "eval"))
  = Ok (try_return R (rbind (py_eval R expression) (str_value R))).
Proof.
  intros H. unfold evaluate_math, evaluate_math_with, math_request. simpl.
  now rewrite subset_allowed_chars, H.
Qed.


Lemma literal_allowed (limit n : Z) :
  literal limit n = true ->
  forallb (fun c => existsb (Ascii.eqb c) allowed) (chars (str_int n)) = true.
Proof.
  intros Hlit. apply (render_allowed limit (EInt n) Hlit).
Qed.

Lemma tokenize_infix (limit a b c : Z) (o1 o2 : binop) :
  literal limit a = true -> literal limit b = true -> literal limit c = true ->
  tokenize limit (infix a o1 b o2 c)
  = [TInt a; binop_token o1; TInt b; binop_token o2; TInt c].
Proof.
  intros Ha Hb Hc. unfold tokenize, infix.
  rewrite !chars_app.
  rewrite (lex_number limit a _ Ha) by now split.
  f_equal.
  destruct o1; simpl;
    (rewrite (lex_number limit b _ Hb) by now split);
    do 2 f_equal;
    destruct o2; simpl;
    rewrite <- (List.app_nil_r (chars (str_int c)));
    now rewrite (lex_number limit c [] Hc I).
Qed.

(** X20. Grouping without parentheses, for integer literals [a], [b],
    [c] and any two binary operators: [a o1 b o2 c] is [a o1 (b o2 c)]
    when [o2] binds tighter than [o1] or both are [**], and
    [(a o1 b) o2 c] otherwise. A unary minus binds less than [**] on its
    left operand, more than [*], and may start the right operand of
    [**]. So the tool answers [a + b * c] with the text of
    [a + b * c]. *)
Theorem eval_precedence (a b c : Z) (o1 o2 : binop) :
  let limit := int_max_str_digits R in
  literal limit a = true -> literal limit b = true -> literal limit c = true ->
  py_eval R (infix a o1 b o2 c)
  = eval_expr R
      (if groups_right o1 o2
       then EBin o1 (EInt a) (EBin o2 (EInt b) (EInt c))
       else EBin o2 (EBin o1 (EInt a) (EInt b)) (EInt c))
  /\ py_eval R ("-" ++ str_int a ++ " ** " ++ str_int b)
     = eval_expr R (EUnary UMinus (EBin Pow (EInt a) (EInt b)))
  /\ py_eval R ("-" ++ str_int a ++ " * " ++ str_int b)
     = eval_expr R (EBin Mul (EUnary UMinus (EInt a)) (EInt b))
  /\ py_eval R (str_int a ++ " ** -" ++ str_int b)
     = eval_expr R (EBin Pow (EInt a) (EUnary UMinus (EInt b)))
  /\ evaluate_math R
       (math_request (PStr (infix a Add b Mul c)) (PStr "eval"))
     = Ok (try_return R (py_str_int limit (a + b * c))).
Proof.
  intros limit Ha Hb Hc.
  assert (H1 : py_eval R (infix a o1 b o2 c)
               = eval_expr R
                   (if groups_right o1 o2
                    then EBin o1 (EInt a) (EBin o2 (EInt b) (EInt c))
                    else EBin o2 (EBin o1 (EInt a) (EInt b)) (EInt c))).
  { unfold py_eval. fold limit. rewrite (tokenize_infix limit a b c o1 o2 Ha Hb Hc).
    now destruct o1, o2. }
  split; [exact H1|].
  assert (Hb0 : lex limit LIdle (chars (str_int b)) = [TInt b]).
  { rewrite <- (List.app_nil_r (chars (str_int b))).
    now rewrite (lex_number limit b [] Hb I). }
  repeat split.
  - unfold py_eval, tokenize. fold limit. rewrite !chars_app. simpl.
    rewrite (lex_number limit a _ Ha) by now split.
    simpl. now rewrite Hb0.
  - unfold py_eval, tokenize. fold limit. rewrite !chars_app. simpl.
    rewrite (lex_number limit a _ Ha) by now split.
    simpl. now rewrite Hb0.
  - unfold py_eval, tokenize. fold limit. rewrite !chars_app.
    rewrite (lex_number limit a _ Ha) by now split.
    simpl. now rewrite Hb0.
  - rewrite evaluate_math_eval.
    + unfold py_eval. fold limit.
      rewrite (tokenize_infix limit a b c Add Mul Ha Hb Hc). reflexivity.
    + unfold infix. rewrite !chars_app, !forallb_app.
      now rewrite (literal_allowed limit a Ha), (literal_allowed limit b Hb),
        (literal_allowed limit c Hc).
Qed.

End Arithmetic.

Lemma digit_range (c : ascii) :
  is_digit c = true -> 0 <= Z.of_N (code c) - 48 <= 9.
Proof.
  unfold is_digit. intros H. apply andb_prop in H. destruct H as [H1 H2].
  apply N.leb_le in H1, H2. lia.
Qed.

Lemma digits_bound (l : list ascii) (acc : Z) :
  Forall (fun c => is_digit c = true) l -> 0 <= acc ->
  fold_left (fun acc c => 10 * acc + (Z.of_N (code c) - 48)) l acc
  < (acc + 1) * 10 ^ Z.of_nat (length l).
Proof.
  intros H. revert acc. induction H as [|c l Hc _ IH]; intros acc Hacc.
  - simpl. lia.
  - cbn [fold_left length]. pose proof (digit_range c Hc) as Hd.
    specialize (IH (10 * acc + (Z.of_N (code c) - 48)) ltac:(lia)).
    rewrite Nat2Z.inj_succ, Z.pow_succ_r by lia.
    assert (Hpow : 0 < 10 ^ Z.of_nat (length l)) by (apply Z.pow_pos_nonneg; lia).
    nia.
Qed.

(** An integer is below the power of ten of the length of its text. *)
Lemma str_int_bound (n : Z) :
  0 <= n -> n < 10 ^ Z.of_nat (length (chars (str_int n))).
Proof.
  destruct n as [|p|p]; intros Hn; [reflexivity| |lia].
  rewrite str_int_pos.
  pose proof (digits_value_uint (Pos.to_uint p)) as Hv.
  rewrite DecimalPos.Unsigned.of_to in Hv. simpl Z.of_N in Hv.
  rewrite <- Hv at 1. unfold digits_value.
  pose proof (digits_bound _ 0 (uint_chars_digits (Pos.to_uint p)) (Z.le_refl 0)).
  lia.
Qed.

Lemma too_long_by_digits (k limit nd n : Z) :
  0 <= n < 10 ^ nd ->
  (k <? nd) && (0 <? limit) && (limit <? nd) = false ->
  (if 10 ^ k <=? n then if 0 <? limit then 10 ^ limit <=? n else false
   else false) = false.
Proof.
  intros [Hn Hlt] H.
  destruct (10 ^ k <=? n) eqn:E1; [|reflexivity].
  destruct (0 <? limit) eqn:E2; [|reflexivity].
  apply Z.leb_le in E1. apply Z.ltb_lt in E2. apply Z.leb_gt.
  assert (Hk : k < nd).
  { destruct (Z.lt_ge_cases k nd) as [|Hge]; [assumption|].
    destruct (Z.le_gt_cases 0 nd) as [Hnd|Hnd].
    - pose proof (Z.pow_le_mono_r 10 nd k ltac:(lia) Hge). lia.
    - rewrite (Z.pow_neg_r 10 nd Hnd) in Hlt. lia. }
  apply Z.ltb_lt in Hk. rewrite Hk in H. simpl in H.
  apply Z.ltb_ge in H.
  pose proof (Z.pow_le_mono_r 10 nd limit ltac:(lia) H). lia.
Qed.

Lemma literal_not_too_long (limit n : Z) :
  literal limit n = true -> int_too_long limit n = false.
Proof.
  unfold literal. intros H. apply andb_prop in H. destruct H as [Hn Hlim].
  apply Z.leb_le in Hn. apply negb_true_iff in Hlim.
  unfold int_too_long. rewrite (Z.abs_eq n Hn).
  exact (too_long_by_digits 640 limit _ n (conj Hn (str_int_bound n Hn)) Hlim).
Qed.

Section Literals.

Variable R : Runtime.

(** X21. Mode [eval] on the decimal text of a non-negative integer
    gives that text back when it has no more digits than the
    interpreter converts, and the error string of a [SyntaxError] when
    it has more; the text of a positive integer with a zero put before
    it is a [SyntaxError] too. *)
Theorem eval_integer_literal (n : Z) :
  0 <= n ->
  let limit := int_max_str_digits R in
  let ndigits := Z.of_nat (length (chars (str_int n))) in
  let eval_mode text := evaluate_math R (math_request (PStr text) (PStr "eval")) in
  (over_limit limit ndigits = false -> eval_mode (str_int n) = Ok (str_int n))
  /\ (over_limit limit ndigits = true ->
      eval_mode (str_int n) = Ok ("Error: " ++ exn_text R SyntaxError)%string)
  /\ (0 < n ->
      eval_mode ("0" ++ str_int n)%string
      = Ok ("Error: " ++ exn_text R SyntaxError)%string).
Proof.
  intros Hn limit ndigits eval_mode.
  destruct (str_int_digits n Hn) as (Hdig & c & l & E).
  assert (Hallowed : forallb (fun c => existsb (Ascii.eqb c) allowed)
                       (chars (str_int n)) = true).
  { apply forallb_forall. intros x Hx. rewrite Forall_forall in Hdig.
    now apply digit_allowed, Hdig. }
  assert (Hlex : forall rd, lex limit (LInt rd) l = [int_token limit (rev rd ++ l)]).
  { intros rd. rewrite <- (List.app_nil_r l) at 1.
    rewrite (lex_digits limit l rd []); [reflexivity| |exact I].
    rewrite E in Hdig. now inversion Hdig. }
  assert (Hc : is_digit c = true) by (rewrite E in Hdig; now inversion Hdig).
  split; [|split].
  - intros Hlim.
    assert (Hlit : literal limit n = true).
    { unfold literal. fold ndigits. rewrite Hlim.
      now rewrite (proj2 (Z.leb_le 0 n) Hn). }
    unfold eval_mode. rewrite (evaluate_math_eval R _ Hallowed).
    unfold py_eval, tokenize. fold limit.
    rewrite <- (List.app_nil_r (chars (str_int n))).
    rewrite (lex_number limit n [] Hlit I). simpl.
    unfold py_str_int. fold limit.
    now rewrite (literal_not_too_long limit n Hlit).
  - intros Hlim.
    unfold eval_mode. rewrite (evaluate_math_eval R _ Hallowed).
    unfold py_eval, tokenize. fold limit. rewrite E. simpl.
    unfold lex_start. rewrite Hc. rewrite Hlex. simpl.
    unfold ndigits in Hlim. rewrite E in Hlim. simpl length in Hlim.
    destruct (is_zero_char c) eqn:Ez.
    + destruct (forallb is_zero_char l) eqn:Eall; simpl.
      * exfalso. destruct n as [|p|p];
          [vm_compute in E; injection E as <- <-; discriminate Hlim| |lia].
        rewrite str_int_pos in E.
        pose proof (to_uint_head p) as Hhd.
        destruct (Pos.to_uint p); try discriminate E;
          try (injection E as <- _; discriminate Ez).
        now elim (Hhd u).
      * reflexivity.
    + simpl Z.of_nat in Hlim. rewrite Hlim. reflexivity.
  - intros Hpos.
    unfold eval_mode. rewrite evaluate_math_eval
      by (rewrite chars_app, forallb_app, Hallowed; reflexivity).
    unfold py_eval, tokenize. fold limit. rewrite chars_app, E. simpl.
    rewrite Hc. simpl. rewrite (Hlex [c; "0"%char]). simpl.
    replace (is_zero_char c) with false; [reflexivity|].
    destruct n as [|p|p]; [lia| |lia].
    rewrite str_int_pos in E.
    pose proof (to_uint_head p) as Hhd.
    destruct (Pos.to_uint p); try discriminate E;
      try (injection E as <- _; reflexivity).
    now elim (Hhd u).
Qed.

End Literals.

Lemma fact_mono (n m : nat) : (n <= m)%nat -> fact n <= fact m.
Proof.
  induction 1 as [|m _ IH]; [lia|].
  pose proof (fact_positive m) as Hm.
  change (fact (S m)) with (Z.of_nat (S m) * fact m). nia.
Qed.

Lemma lex_spaces (limit : Z) (k : nat) : tokenize limit (spaces k) = [].
Proof.
  unfold tokenize, spaces, chars. rewrite list_ascii_of_string_of_list_ascii.
  induction k as [|k IH]; [reflexivity|exact IH].
Qed.

Lemma strip_spaces (k : nat) : strip_with is_int_space (chars (spaces k)) = [].
Proof.
  unfold strip_with, spaces, chars. rewrite list_ascii_of_string_of_list_ascii.
  replace (drop_while is_int_space (repeat " "%char k)) with (@nil ascii);
    [reflexivity|].
  induction k as [|k IH]; [reflexivity|exact IH].
Qed.

Lemma spaces_allowed (k : nat) :
  forallb (fun c => existsb (Ascii.eqb c) allowed) (chars (spaces k)) = true.
Proof.
  unfold spaces, chars. rewrite list_ascii_of_string_of_list_ascii.
  induction k as [|k IH]; [reflexivity|exact IH].
Qed.

Section MoreMath.

Variable R : Runtime.

Local Abbreviation pyobj := (pyobj (float R)).

(** X22. When [evaluate_math] raises, in full. A payload that is not a
    dictionary raises [TypeError]; a dictionary without [expression]
    raises [KeyError] for it, and one with it but without [mode] raises
    [KeyError] for [mode]. With both keys only mode [eval] can raise,
    and only by [set(expr)], which is outside the [try]: [TypeError]
    for an expression that is [None], a boolean or a number, or a list
    with a list or dictionary in it. In every other case a string is
    returned. *)
Theorem evaluate_math_raises (payload : pyobj) (e : exn) :
  evaluate_math R payload = Raise e
  <-> match payload with
      | PDict d =>
          match pydict.get d "expression", pydict.get d "mode" with
          | None, _ => e = KeyError "expression"
          | Some _, None => e = KeyError "mode"
          | Some expression, Some mode =>
              mode = PStr "eval" /\ e = TypeError
              /\ match expression with
                 | PStr _ | PDict _ => False
                 | PList l => forallb hashable l = false
                 | _ => True
                 end
          end
      | _ => e = TypeError
      end.
Proof.
  unfold evaluate_math, evaluate_math_with.
  destruct payload as [| | | | |l|d]; simpl;
    try (split; [now intros [= <-]|now intros ->]).
  unfold pydict.getitem.
  destruct (pydict.get d "expression") as [expression|]; simpl;
    [|split; [now intros [= <-]|now intros ->]].
  destruct (pydict.get d "mode") as [mode|]; simpl;
    [|split; [now intros [= <-]|now intros ->]].
  destruct (eq_str mode "sqrt") eqn:E1.
  { apply eq_str_true in E1. subst mode.
    split; [discriminate|]. now intros ([=] & _). }
  destruct (eq_str mode "factorial") eqn:E2.
  { apply eq_str_true in E2. subst mode.
    split; [discriminate|]. now intros ([=] & _). }
  destruct (eq_str mode "eval") eqn:E3.
  - apply eq_str_true in E3. subst mode.
    destruct expression as [| | | | |l|d']; simpl;
      try (split; [now intros [= <-]|now intros (_ & -> & _)]).
    + destruct (negb _); split; try discriminate; now intros (_ & _ & []).
    + destruct (forallb hashable l); simpl.
      * destruct (negb _); split; try discriminate; now intros (_ & _ & [=]).
      * split; [now intros [= <-]|now intros (_ & -> & _)].
    + destruct (negb _); split; try discriminate; now intros (_ & _ & []).
  - split; [discriminate|]. intros (-> & _). discriminate E3.
Qed.

(** X23. Mode [factorial] over the whole range it accepts. With no
    bound on digits the tool returns the decimal text of [n!] for every
    [0 <= n <= 10000]. With the bound of 4300 digits the interpreter
    starts with, it does so exactly for [n <= 1558], and returns the
    error string of the [ValueError] of [str] for every [n] from 1559
    to 10000. [n] is what [int()] makes of the expression. *)
Theorem factorial_exact_range (d : pydict.t pyobj) (expression : pyobj) (n : Z) :
  pydict.get d "expression" = Some expression ->
  pydict.get d "mode" = Some (PStr "factorial") ->
  py_int R expression = Ok n ->
  0 <= n <= 10000 ->
  (int_max_str_digits R = 0 ->
   evaluate_math R (PDict d) = Ok (str_int (fact (Z.to_nat n))))
  /\ (int_max_str_digits R = 4300 -> n <= 1558 ->
      evaluate_math R (PDict d) = Ok (str_int (fact (Z.to_nat n))))
  /\ (int_max_str_digits R = 4300 -> 1559 <= n ->
      evaluate_math R (PDict d) = Ok ("Error: " ++ exn_text R ValueError)%string).
Proof.
  intros He Hm Hint Hn.
  rewrite (proj1 (factorial_mode R d expression He Hm) n Hint Hn).
  pose proof (fact_positive (Z.to_nat n)) as Hpos.
  split; [|split].
  - intros ->. unfold int_too_long.
    now destruct (10 ^ 640 <=? Z.abs (fact (Z.to_nat n))).
  - intros -> Hle.
    assert (Hnat : (Z.to_nat n <= Z.to_nat 1558)%nat) by (apply Z2Nat.inj_le; lia).
    pose proof (fact_mono _ _ Hnat) as Hmono.
    pose proof (proj1 factorial_digits_4300) as Hlo.
    revert Hmono Hlo. generalize (fact (Z.to_nat 1558)). intros f Hmono Hlo.
    now rewrite (proj2 (int_too_long_spec 4300 _ (Z.lt_le_incl _ _ Hpos) eq_refl)
                   (Z.le_lt_trans _ _ _ Hmono Hlo)).
  - intros -> Hge.
    assert (Hnat : (Z.to_nat 1559 <= Z.to_nat n)%nat) by (apply Z2Nat.inj_le; lia).
    pose proof (fact_mono _ _ Hnat) as Hmono.
    pose proof (proj2 factorial_digits_4300) as Hhi.
    revert Hmono Hhi. generalize (fact (Z.to_nat 1559)). intros f Hmono Hhi.
    now rewrite (proj1 (int_too_long_spec 4300 _ (Z.lt_le_incl _ _ Hpos) eq_refl)
                   (Z.le_trans _ _ _ Hhi Hmono)
                   (proj1 (Z.leb_le 640 4300) eq_refl)).
Qed.

(** X24. An expression of spaces only, the empty string included, is
    no error of the whitelist: mode [eval] returns the error string of
    the [SyntaxError] of [eval], and mode [factorial] that of the
    [ValueError] of [int()]. *)
Theorem blank_expression (k : nat) (d : pydict.t pyobj) :
  pydict.get d "expression" = Some (PStr (spaces k)) ->
  (pydict.get d "mode" = Some (PStr "eval") ->
   evaluate_math R (PDict d) = Ok ("Error: " ++ exn_text R SyntaxError)%string)
  /\ (pydict.get d "mode" = Some (PStr "factorial") ->
      evaluate_math R (PDict d) = Ok ("Error: " ++ exn_text R ValueError)%string).
Proof.
  intros He. split; intros Hm.
  - unfold evaluate_math. rewrite (evaluate_math_unfold R _ d _ _ He Hm).
    unfold evaluate_math_with, math_request. simpl.
    rewrite subset_allowed_chars, spaces_allowed.
    simpl. unfold py_eval. now rewrite lex_spaces.
  - apply (proj1 (proj2 (proj2 (factorial_mode R d _ He Hm)))).
    simpl. unfold int_of_str. now rewrite strip_spaces.
Qed.

End MoreMath.

(** ** Further concrete runs *)

Lemma solve_direct_answer_witness :
  run (Agent.solve sample_runtime "What is 2 + 2?" sample_agent)
    [Ok (text_reply "  4 ")]
  = Some ((Ok "4", with_turn sample_agent "assistant" "4"),
          [first_pass_request sample_runtime sample_agent "What is 2 + 2?"]).
Proof.
  exact (proj1 (solve_direct_answer sample_runtime sample_agent
                  "What is 2 + 2?" (text_reply "  4 ") (text_message "  4 ") []
                  eq_refl (or_introl eq_refl))).
Defined.

Lemma solve_empty_choices_witness :
  run (Agent.solve sample_runtime "What is 2 + 2?" sample_agent)
    [Ok empty_reply]
  = Some ((Raise IndexError, sample_agent),
          [first_pass_request sample_runtime sample_agent "What is 2 + 2?"]).
Proof.
  exact (proj1 (solve_empty_choices sample_runtime sample_agent
                  "What is 2 + 2?" empty_reply [] eq_refl)).
Defined.

Lemma tool_exception_leaves_solve_witness :
  run (Agent.solve sample_runtime "What is 2 + 3 * 4?" sample_agent)
    [Ok (tool_reply [call_A; call_undecodable; call_B])]
  = Some ((Raise (OtherError "JSONDecodeError"), sample_agent),
          [first_pass_request sample_runtime sample_agent "What is 2 + 3 * 4?"]).
Proof.
  exact (proj1 (tool_exception_leaves_solve sample_runtime sample_agent
                  "What is 2 + 3 * 4?"
                  (tool_reply [call_A; call_undecodable; call_B])
                  (tool_message [call_A; call_undecodable; call_B])
                  [call_A] [call_B] call_undecodable
                  (first_pass_messages sample_runtime sample_agent
                     "What is 2 + 3 * 4?"
                   ++ [ToolResult "call_A" "evaluate_math" "14"])
                  (OtherError "JSONDecodeError") []
                  eq_refl eq_refl eq_refl eq_refl)).
Defined.

Lemma solve_tool_answer_witness :
  fst (fst (match run (Agent.solve sample_runtime "What is 2 + 3 * 4?" sample_agent)
                    [Ok (tool_reply [call_A]); Ok (text_reply " It is 14. ")]
            with
            | Some r => r
            | None => ((Raise IndexError, sample_agent), [])
            end))
  = Ok "It is 14.".
Proof.
  exact (f_equal
           (fun r => fst (fst (match r with
                               | Some r => r
                               | None => ((Raise IndexError, sample_agent), [])
                               end)))
           (solve_tool_answer sample_runtime sample_agent "What is 2 + 3 * 4?"
              (tool_reply [call_A]) (text_reply " It is 14. ")
              (tool_message [call_A]) (text_message " It is 14. ")
              call_A []
              (first_pass_messages sample_runtime sample_agent
                 "What is 2 + 3 * 4?"
               ++ [ToolResult "call_A" "evaluate_math" "14"])
              [] eq_refl eq_refl eq_refl eq_refl)).
Defined.

Lemma solve_follow_up_witness :
  first_pass_messages sample_runtime
    (with_turn sample_agent "assistant" "4") "And doubled?"
  = [Turn "system" Agent.sys; Turn "assistant" "4"; Turn "user" "And doubled?"].
Proof.
  exact (proj1 (solve_follow_up sample_runtime sample_agent
                  (with_turn sample_agent "assistant" "4")
                  "What is 2 + 2?" "And doubled?" "4"
                  [Ok (text_reply "  4 ")]
                  [first_pass_request sample_runtime sample_agent "What is 2 + 2?"]
                  eq_refl)).
Defined.


Lemma propose_then_solve_witness :
  first_pass_messages sample_runtime
    (with_turn sample_agent "user" "Question to solve: Is 91 prime?")
    "Is 91 prime?"
  = [Turn "system" Agent.sys;
     Turn "user" "Question to solve: Is 91 prime?";
     Turn "user" "Is 91 prime?"].
Proof.
  exact (proj1 (propose_then_solve sample_runtime sample_agent
                  (with_turn sample_agent "user" "Question to solve: Is 91 prime?")
                  "Is 91 prime?" [Ok (text_reply " Is 91 prime? ")]
                  [Agent.propose_request sample_runtime sample_settings]
                  eq_refl)).
Defined.

Lemma load_settings_models_witness :
  fst (load_settings sample_load_dotenv sample_environ) = Ok sample_loaded_settings
  /\ Settings.model_default sample_loaded_settings = "gpt-4.1"
  /\ Settings.model_fast sample_loaded_settings = ""
  /\ Settings.model_tiny sample_loaded_settings = "gpt-4.1-nano".
Proof.
  split; [reflexivity|].
  destruct (load_settings_models sample_load_dotenv sample_environ
              sample_loaded_settings eq_refl) as (H1 & H2 & H3 & _).
  exact (conj H1 (conj H2 H3)).
Defined.

Lemma main_without_settings_witness :
  run (main sample_runtime sample_load_dotenv sample_rprint
         [("OPENAI_API_KEY", "")])
    [Ok (text_reply "Is 91 prime?")]
  = Some ((Raise runtime_error, []), []).
Proof.
  exact (main_without_settings sample_load_dotenv sample_runtime sample_rprint
           [("OPENAI_API_KEY", "")] runtime_error
           [Ok (text_reply "Is 91 prime?")] eq_refl).
Defined.

Lemma main_success_witness :
  exists requests,
    run (main sample_runtime sample_load_dotenv sample_rprint sample_environ)
      [Ok (text_reply " What is 2 + 3 * 4? ");
       Ok (tool_reply [call_A]); Ok (text_reply "It is 14.")]
    = Some ((Ok tt,
             ["[bold cyan]Phase 1: Propose a challenging question[/bold cyan]";
              "[yellow]Question:[/yellow] What is 2 + 3 * 4?";
              newline ++ "[bold cyan]Phase 2: Solve with tools if needed[/bold cyan]";
              "[green]Answer:[/green] It is 14.";
              newline ++ "[dim]Done.[/dim]"]%string),
            Agent.propose_request sample_runtime sample_loaded_settings
              :: requests)
    /\ length requests = 2%nat.
Proof.
  eexists. split.
  - eapply (main_success sample_load_dotenv sample_runtime sample_rprint
              sample_environ sample_loaded_settings
              (Ok (text_reply " What is 2 + 3 * 4? "))
              [Ok (tool_reply [call_A]); Ok (text_reply "It is 14.")]
              "What is 2 + 3 * 4?" "It is 14.");
      [intros text|..]; reflexivity.
  - reflexivity.
Defined.

Lemma main_stops_at_failure_witness :
  run (main sample_runtime sample_load_dotenv sample_rprint sample_environ)
    [Raise (OtherError "APIConnectionError")]
  = Some ((Raise (OtherError "APIConnectionError"),
           ["[bold cyan]Phase 1: Propose a challenging question[/bold cyan]"]),
          [Agent.propose_request sample_runtime sample_loaded_settings]).
Proof.
  exact (proj1 (main_stops_at_failure sample_load_dotenv sample_runtime
                  sample_rprint sample_environ sample_loaded_settings
                  (Raise (OtherError "APIConnectionError")) []
                  (Agent.init sample_runtime sample_loaded_settings)
                  [Agent.propose_request sample_runtime sample_loaded_settings]
                  eq_refl eq_refl)
           (OtherError "APIConnectionError") eq_refl).
Defined.


Lemma eval_precedence_witness :
  py_eval sample_runtime "2 ** 3 ** 2" = Ok (VInt 512)
  /\ py_eval sample_runtime "-2 ** 2" = Ok (VInt (-4))
  /\ evaluate_math sample_runtime
       (math_request (PStr "2 + 3 * 4") (PStr "eval"))
     = Ok "14".
Proof.
  destruct (eval_precedence sample_runtime 2 3 2 Pow Pow eq_refl eq_refl eq_refl)
    as (H1 & _).
  destruct (eval_precedence sample_runtime 2 2 4 Add Mul eq_refl eq_refl eq_refl)
    as (_ & H2 & _).
  destruct (eval_precedence sample_runtime 2 3 4 Add Mul eq_refl eq_refl eq_refl)
    as (_ & _ & _ & _ & H3).
  exact (conj H1 (conj H2 H3)).
Defined.

Lemma eval_integer_literal_witness :
  evaluate_math sample_runtime (math_request (PStr "42") (PStr "eval")) = Ok "42"
  /\ evaluate_math sample_runtime (math_request (PStr "042") (PStr "eval"))
     = Ok "Error: SyntaxError".
Proof.
  destruct (eval_integer_literal sample_runtime 42 (proj1 (Z.leb_le 0 42) eq_refl))
    as (H1 & _ & H3).
  exact (conj (H1 eq_refl) (H3 eq_refl)).
Defined.

Lemma factorial_exact_range_witness :
  evaluate_math sample_runtime (math_request (PStr " 5 ") (PStr "factorial"))
  = Ok "120".
Proof.
  exact (proj1 (proj2 (factorial_exact_range sample_runtime
                         [("expression", PStr " 5 "); ("mode", PStr "factorial")]
                         (PStr " 5 ") 5 eq_refl eq_refl eq_refl
                         (conj (proj1 (Z.leb_le 0 5) eq_refl)
                               (proj1 (Z.leb_le 5 10000) eq_refl))))
           eq_refl (proj1 (Z.leb_le 5 1558) eq_refl)).
Defined.

Lemma blank_expression_witness :
  evaluate_math sample_runtime (math_request (PStr "   ") (PStr "eval"))
  = Ok "Error: SyntaxError"
  /\ evaluate_math sample_runtime (math_request (PStr "") (PStr "factorial"))
     = Ok "Error: ValueError".
Proof.
  exact (conj
           (proj1 (blank_expression sample_runtime 3
                     [("expression", PStr "   "); ("mode", PStr "eval")]
                     eq_refl) eq_refl)
           (proj2 (blank_expression sample_runtime 0
                     [("expression", PStr ""); ("mode", PStr "factorial")]
                     eq_refl) eq_refl)).
Defined.
